(** * CH-Mock-Export: the aggregation pipeline of [src/cli/main.py]

    A shallow embedding of [process_data] and [main]: Python [str] values are
    sequences of Unicode code points, [bytes] are lists of bytes, the two
    [defaultdict] counters are insertion-ordered association lists, and the
    effects of a run (HTTP requests, standard output, the output file,
    exceptions) are threaded through a small state-and-exception monad. *)

From Stdlib Require Import ZArith NArith Ascii String DecimalString.
From stdpp Require Import base tactics option list gmap.

Local Open Scope Z_scope.
Set Warnings "-register-all".

(** ** Python strings *)

(** A code point of a Python [str]. *)
Definition char : Type := N.

(** A Python [str]: a finite sequence of code points. *)
Definition str : Type := list char.

(** A Python [bytes] object. *)
Definition bytes : Type := list Byte.byte.

(** A literal of the source, written as a Rocq string of ASCII characters. *)
Definition lit (s : string) : str :=
  map N_of_ascii (list_ascii_of_string s).

Definition comma : char := 44%N.

(** [str.isspace] on one code point, as used by [str.strip()] without
    argument: the ASCII white space [\t \n \v \f \r], the separators
    [0x1C]..[0x1F], the space, and the Unicode white space above ASCII. *)
Definition isspace (c : char) : bool :=
  ((9 <=? c) && (c <=? 13) || (28 <=? c) && (c <=? 32)
   || (c =? 133) || (c =? 160) || (c =? 5760)
   || (8192 <=? c) && (c <=? 8202)
   || (c =? 8232) || (c =? 8233) || (c =? 8239) || (c =? 8287)
   || (c =? 12288))%N.

(** [str.lstrip()]. *)
Fixpoint lstrip (s : str) : str :=
  match s with
  | [] => []
  | c :: s' => if isspace c then lstrip s' else s
  end.

(** [str.rstrip()]. *)
Definition rstrip (s : str) : str := rev (lstrip (rev s)).

(** [str.strip()]. *)
Definition strip (s : str) : str := rstrip (lstrip s).

(** [str.split(sep)] for a one-character separator: every occurrence of the
    separator ends a field, so the result is never empty and the empty
    string splits into one empty field. *)
Fixpoint split (sep : char) (s : str) : list str :=
  match s with
  | [] => [[]]
  | c :: s' =>
      if (c =? sep)%N then [] :: split sep s'
      else match split sep s' with
           | f :: fs => (c :: f) :: fs
           | [] => [[c]]
           end
  end.

(** [str.join]. *)
Fixpoint join (sep : str) (parts : list str) : str :=
  match parts with
  | [] => []
  | [p] => p
  | p :: ps => p ++ sep ++ join sep ps
  end.

(** [str(n)] for a Python [int]. *)
Definition str_of_int (n : Z) : str :=
  lit (NilZero.string_of_int (Z.to_int n)).

(** ** Insertion-ordered dictionaries *)

(** A Python [dict] keeps its keys in insertion order; assigning to a key
    that is present keeps the key's position. *)
Definition dict (V : Type) : Type := list (str * V).

Section Dict.
Context {V : Type}.

(** [k in d] and [d.get(k)]. *)
Fixpoint dict_get (k : str) (d : dict V) : option V :=
  match d with
  | [] => None
  | (k', v) :: d' => if decide (k' = k) then Some v else dict_get k d'
  end.

(** [d[k] = v]. *)
Fixpoint dict_set (k : str) (v : V) (d : dict V) : dict V :=
  match d with
  | [] => [(k, v)]
  | (k', v') :: d' =>
      if decide (k' = k) then (k', v) :: d' else (k', v') :: dict_set k v d'
  end.

(** [d[k]] on a [defaultdict(factory)]: a missing key is first inserted
    with the factory's value ([__missing__]), so the read itself can
    change the dictionary. *)
Definition defaultdict_getitem (factory : V) (k : str) (d : dict V)
  : V * dict V :=
  match dict_get k d with
  | Some v => (v, d)
  | None => (factory, dict_set k factory d)
  end.

Definition keys (d : dict V) : list str := map fst d.

(** [dict(d)]: a shallow copy with the same items in the same order. *)
Definition dict_copy (d : dict V) : dict V := map (fun kv => (kv.1, kv.2)) d.
End Dict.

(** ** Bytes and UTF-8 *)

Definition LF : Byte.byte := Byte.x0a.

(** The lines a response yields, by [readline()] and by iteration alike:
    each line runs up to and including its line feed, the last one may lack
    it. *)
Fixpoint iter_lines (b : bytes) : list bytes :=
  match b with
  | [] => []
  | c :: b' =>
      if Byte.eqb c LF then [c] :: iter_lines b'
      else match iter_lines b' with
           | l :: ls => (c :: l) :: ls
           | [] => [[c]]
           end
  end.

Definition continuation (b : N) : bool := ((128 <=? b) && (b <=? 191))%N.

(** Strict UTF-8 decoding of a sequence of byte values: [None] stands for
    [UnicodeDecodeError] (stray or missing continuation bytes, overlong
    forms, surrogates, code points above [0x10FFFF]). *)
Fixpoint utf8_code_points (b : list N) : option str :=
  match b with
  | [] => Some []
  | b0 :: r0 =>
      if (b0 <? 128)%N then cons b0 <$> utf8_code_points r0
      else if (b0 <? 224)%N then
        match r0 with
        | b1 :: r1 =>
            if ((194 <=? b0) && continuation b1)%N
            then cons ((b0 - 192) * 64 + (b1 - 128))%N <$> utf8_code_points r1
            else None
        | _ => None
        end
      else if (b0 <? 240)%N then
        match r0 with
        | b1 :: b2 :: r2 =>
            let cp := ((b0 - 224) * 4096 + (b1 - 128) * 64 + (b2 - 128))%N in
            if (continuation b1 && continuation b2 && (2048 <=? cp)
                && negb ((55296 <=? cp) && (cp <=? 57343)))%N
            then cons cp <$> utf8_code_points r2
            else None
        | _ => None
        end
      else
        match r0 with
        | b1 :: b2 :: b3 :: r3 =>
            let cp := ((b0 - 240) * 262144 + (b1 - 128) * 4096
                       + (b2 - 128) * 64 + (b3 - 128))%N in
            if ((b0 <? 248) && continuation b1 && continuation b2
                && continuation b3 && (65536 <=? cp) && (cp <=? 1114111))%N
            then cons cp <$> utf8_code_points r3
            else None
        | _ => None
        end
  end.

(** [b.decode("utf-8")]. *)
Definition decode_utf8 (b : bytes) : option str :=
  utf8_code_points (map Byte.to_N b).

(** The bytes of an ASCII literal. *)
Definition blit (s : string) : bytes := list_byte_of_string s.

(** ** Python values and [json.dumps] *)

(** The values [json.loads] can return.  A float carries the text
    [json.dumps] writes for it. *)
Inductive value : Type :=
| VNone
| VBool (b : bool)
| VInt (n : Z)
| VFloat (text : str)
| VStr (s : str)
| VList (l : list value)
| VDict (d : list (str * value)).

Definition hex_digit (n : N) : char :=
  (if n <? 10 then 48 + n else 87 + n)%N.

(** [format(n, "04x")] for [n < 65536]. *)
Definition hex4 (n : N) : str :=
  [hex_digit (n / 4096 mod 16); hex_digit (n / 256 mod 16);
   hex_digit (n / 16 mod 16); hex_digit (n mod 16)]%N.

Definition backslash_u (n : N) : str := 92%N :: 117%N :: hex4 n.

(** The replacement of one code point in [py_encode_basestring_ascii]:
    printable ASCII stands for itself, the quote, the backslash and the
    usual control characters get their two-character escapes, everything
    else is written [\uXXXX], above the basic plane as a surrogate pair. *)
Definition escape_ascii (c : char) : str :=
  (if c =? 34 then [92; 34]
   else if c =? 92 then [92; 92]
   else if c =? 10 then [92; 110]
   else if c =? 13 then [92; 114]
   else if c =? 9 then [92; 116]
   else if c =? 12 then [92; 102]
   else if c =? 8 then [92; 98]
   else if (32 <=? c) && (c <=? 126) then [c]
   else if c <? 65536 then backslash_u c
   else let n := c - 65536 in
        backslash_u (N.lor 55296 (N.land (N.shiftr n 10) 1023))
        ++ backslash_u (N.lor 56320 (N.land n 1023)))%N.

Definition encode_basestring_ascii (s : str) : str :=
  [34%N] ++ concat (map escape_ascii s) ++ [34%N].

Definition newline_indent (level : nat) : str :=
  10%N :: repeat 32%N (2 * level).

(** [json.dumps(o, indent=2)], at nesting depth [level]: one item per line,
    items separated by a comma, key and value by [": "], the items of a
    dictionary in the dictionary's own order. *)
Fixpoint encode (level : nat) (o : value) : str :=
  match o with
  | VNone => lit "null"
  | VBool true => lit "true"
  | VBool false => lit "false"
  | VInt n => str_of_int n
  | VFloat text => text
  | VStr s => encode_basestring_ascii s
  | VList [] => lit "[]"
  | VList l =>
      lit "[" ++ newline_indent (S level)
      ++ join (lit "," ++ newline_indent (S level)) (map (encode (S level)) l)
      ++ newline_indent level ++ lit "]"
  | VDict [] => lit "{}"
  | VDict d =>
      lit "{" ++ newline_indent (S level)
      ++ join (lit "," ++ newline_indent (S level))
           (map (fun kv => encode_basestring_ascii (fst kv) ++ lit ": "
                           ++ encode (S level) (snd kv)) d)
      ++ newline_indent level ++ lit "}"
  end.

Definition dumps (o : value) : str := encode 0 o.

(** ** The aggregation core of [process_data] *)

(** The two counters of lines 127-128. *)
Record counters : Type := Counters {
  patient_counts : dict (dict Z);
  total_counts : dict Z;
}.

(** Lines 127-128: both counters start empty. *)
Definition init_counters : counters := Counters [] [].

(** The four names bound by the unpacking of line 152. *)
Record event_record : Type := EventRecord {
  patient_id : str;
  event_time : str;
  event_type : str;
  value_field : str;
}.

(** Lines 141-152 on a decoded line: strip, skip the empty line, split on
    the comma, skip a row that has not exactly four fields, unpack. *)
Definition parse_row (line : str) : option event_record :=
  let line_str := strip line in
  match line_str with
  | [] => None
  | _ =>
      let row := split comma line_str in
      if negb (length row =? 4)%nat then None
      else match row with
           | [p; tm; ty; v] => Some (EventRecord p tm ty v)
           | _ => None
           end
  end.

(** [d[k] += 1] on a [defaultdict(int)]: read (inserting [0] for a missing
    key), add one, store. *)
Definition increment (k : str) (d : dict Z) : dict Z :=
  let '(n, d1) := defaultdict_getitem 0 k d in
  dict_set k (n + 1) d1.

(** Line 153, [patient_counts[patient_id][event_type] += 1]: the outer read
    inserts an empty inner dictionary for a new patient and returns the
    inner dictionary itself, which the increment then changes in place; the
    outer dictionary sees the change through the shared object, written
    here as storing the changed inner dictionary back under its key. *)
Definition increment_patient (p ty : str) (pc : dict (dict Z))
  : dict (dict Z) :=
  let '(inner, pc1) := defaultdict_getitem (V := dict Z) [] p pc in
  dict_set p (increment ty inner) pc1.

(** Lines 153-154. *)
Definition apply_record (r : event_record) (c : counters) : counters :=
  Counters (increment_patient (patient_id r) (event_type r) (patient_counts c))
           (increment (event_type r) (total_counts c)).

(** The variables the inner loop changes: the counters and [row_count]. *)
Record loop_state : Type := LoopState {
  counts : counters;
  row_count : Z;
}.

(** Lines 141-155: the body of the inner loop on a decoded line. *)
Definition process_line (line : str) (st : loop_state) : loop_state :=
  match parse_row line with
  | None => st
  | Some r => LoopState (apply_record r (counts st)) (row_count st + 1)
  end.

(** The counters after a sequence of records. *)
Definition apply_records (rs : list event_record) (c : counters) : counters :=
  foldl (fun c r => apply_record r c) c rs.

(** [d[k]] as a count: a missing key of a [defaultdict(int)] reads [0]. *)
Definition count (k : str) (d : dict Z) : Z := default 0 (dict_get k d).

(** The sum over all patients [p] of [patient_counts[p][t]]. *)
Definition patients_sum (t : str) (pc : dict (dict Z)) : Z :=
  foldr (fun kv acc => count t (snd kv) + acc) 0 pc.

(** ** Exceptions and effects *)

Inductive exn : Type :=
| URLError (reason : str)
| UnicodeDecodeError
| JSONDecodeError (msg : str)
| KeyError (key : str)
| TypeError
| AttributeError
| OSError (msg : str)
| IncompleteRead.

Inductive result (A : Type) : Type :=
| Ok (a : A)
| Raise (e : exn).
Arguments Ok {A} a.
Arguments Raise {A} e.

(** What a run can observe and change: the text written to standard
    output, the files written, and the URLs requested so far. *)
Record world : Type := World {
  stdout : str;
  files : gmap str str;
  requests : list str;
}.

(** What a response hands over when it is read: the bytes of the lines
    that arrive and, when a read fails before the end of the response, the
    exception of that read ([http.client.IncompleteRead],
    [ConnectionResetError], ...).  A line cut short by the failure is not
    handed over; with [None] the response is read to its end. *)
Record response : Type := Response {
  delivered : bytes;
  failure : option exn;
}.

(** What the run takes from outside the repository.  [urlopen n url] is
    the outcome of the [n]-th request of the run (from 0) when it asks for
    [url]: an exception or a response.  [json_loads] is [json.loads];
    [py_str] is [str()] on a value that is not a string; [open_w path] is
    the exception [open(path, "w")] raises, if any; [write_w path text] is
    the failure, if any, of writing [text] to the file once it is open, or
    of closing it: the exception, and what the file then holds. *)
Record platform : Type := Platform {
  urlopen : nat -> str -> result response;
  json_loads : str -> result value;
  py_str : value -> str;
  open_w : str -> option exn;
  write_w : str -> str -> option (exn * str);
}.

(** A computation that reads and changes the world and may raise. *)
Definition M (A : Type) : Type := world -> result A * world.

Definition ret {A} (a : A) : M A := fun w => (Ok a, w).
Definition raise {A} (e : exn) : M A := fun w => (Raise e, w).
Definition bind {A B} (m : M A) (k : A -> M B) : M B :=
  fun w => match m w with
           | (Ok a, w') => k a w'
           | (Raise e, w') => (Raise e, w')
           end.
Definition lift {A} (r : result A) : M A := fun w => (r, w).

#[global] Instance M_ret : MRet M := @ret.
#[global] Instance M_bind : MBind M := fun A B k m => bind m k.

(** The world after one more request. *)
Definition record_request (url : str) (w : world) : world :=
  World (stdout w) (files w) (requests w ++ [url]).

(** [urllib.request.urlopen(url)]: the request is recorded, and its outcome
    is the platform's for this position in the run. *)
Definition do_urlopen (P : platform) (url : str) : M response :=
  fun w => (urlopen P (length (requests w)) url, record_request url w).

(** [response.read()]: the whole body, or the exception of the read that
    fails. *)
Definition read (r : response) : M bytes :=
  match failure r with
  | Some e => raise e
  | None => ret (delivered r)
  end.

(** [b.decode("utf-8")] as a computation. *)
Definition decode (b : bytes) : M str :=
  match decode_utf8 b with
  | Some s => ret s
  | None => raise UnicodeDecodeError
  end.

(** [print(text)]. *)
Definition print (text : str) : M unit :=
  fun w => (Ok tt, World (stdout w ++ text ++ [10%N]) (files w) (requests w)).

(** [with open(path, "w") as f: json.dump(output, f, indent=2)], the text
    being what [json.dump] writes: when [open] raises nothing is changed;
    once the file is open it is truncated, and either the text is written
    and the file closed, the text being then all it holds, or a write (or
    the flush at closing) raises and the file is left with what had
    reached it. *)
Definition write_file (P : platform) (path text : str) : M unit :=
  fun w =>
    match open_w P path with
    | Some e => (Raise e, w)
    | None =>
        match write_w P path text with
        | Some (e, reached) =>
            (Raise e,
             World (stdout w) (<[path := reached]> (files w)) (requests w))
        | None =>
            (Ok tt, World (stdout w) (<[path := text]> (files w)) (requests w))
        end
    end.

(** [o[key]] for a string key: only a dictionary that has the key answers;
    a list or a string wants an integer index, the other values cannot be
    subscripted. *)
Definition getitem (o : value) (key : str) : result value :=
  match o with
  | VDict d =>
      match dict_get key d with
      | Some v => Ok v
      | None => Raise (KeyError key)
      end
  | _ => Raise TypeError
  end.

(** What [len(download_ids)] and [for download_id in download_ids] make of
    the value found under ["download_ids"]: a list yields its items, a
    string its characters, a dictionary its keys; the other values have no
    [len()], which line 124 already asks for. *)
Definition iterate (o : value) : result (list value) :=
  match o with
  | VList l => Ok l
  | VStr s => Ok (map (fun c => VStr [c]) s)
  | VDict d => Ok (map (fun kv => VStr (fst kv)) d)
  | _ => Raise TypeError
  end.

(** [download_ids.index(download_id)] in the message of line 132 is
    evaluated whatever the log level: a list and a string find the item
    they have just yielded, a dictionary has no [index]. *)
Definition index_check (o : value) : result unit :=
  match o with
  | VDict _ => Raise AttributeError
  | _ => Ok tt
  end.

(** The text an f-string puts for a value. *)
Definition format_value (P : platform) (v : value) : str :=
  match v with
  | VStr s => s
  | _ => py_str P v
  end.

Definition base_url : str := lit "http://localhost:8000/api".

(** Line 117. *)
Definition export_url (export_id : str) : str :=
  base_url ++ lit "/export/" ++ export_id.

(** Line 135. *)
Definition data_url (P : platform) (export_id : str) (download_id : value)
  : str :=
  base_url ++ lit "/export/" ++ export_id ++ lit "/"
  ++ format_value P download_id ++ lit "/data".

(** Lines 140-155, [for line in response]: the response is read line by
    line while the loop runs.  [lines] are the lines it still hands over
    and [failure] the exception of the read that fails after them, if one
    does: each line is decoded and processed in turn, then the loop ends
    or the failing read raises. *)
Fixpoint process_lines (lines : list bytes) (failure : option exn)
    (st : loop_state) : M loop_state :=
  match lines with
  | [] =>
      match failure with
      | Some e => raise e
      | None => ret st
      end
  | line :: rest =>
      s ← decode line;
      process_lines rest failure (process_line s st)
  end.

(** Lines 132-156: one download.  The first line of the response is read
    and dropped, [row_count] starts at zero, the other lines are
    processed; a response that hands over no line at all and fails makes
    [readline()] raise. *)
Definition process_download (P : platform) (export_id : str)
    (download_ids download_id : value) (c : counters) : M counters :=
  _ ← lift (index_check download_ids);
  r ← do_urlopen P (data_url P export_id download_id);
  st ← process_lines (tail (iter_lines (delivered r))) (failure r)
         (LoopState c 0);
  ret (counts st).

(** Lines 131-156: the downloads one after the other, in list order. *)
Fixpoint process_downloads (P : platform) (export_id : str)
    (download_ids : value) (ids : list value) (c : counters) : M counters :=
  match ids with
  | [] => ret c
  | download_id :: rest =>
      c' ← process_download P export_id download_ids download_id c;
      process_downloads P export_id download_ids rest c'
  end.

(** Lines 164-171: the dictionary handed to [json]. *)
Definition output_of (c : counters) : value :=
  VDict [ (lit "patients",
           VDict (map (fun kv => (fst kv,
                    VDict (map (fun tn => (fst tn, VInt (snd tn)))
                               (dict_copy (snd kv)))))
                  (dict_copy (patient_counts c))));
          (lit "totals",
           VDict (map (fun tn => (fst tn, VInt (snd tn)))
                      (dict_copy (total_counts c)))) ].

(** [if output_file:] of line 174: [None] and the empty string are false. *)
Definition truthy (output_file : option str) : option str :=
  match output_file with
  | Some (c :: s) => Some (c :: s)
  | _ => None
  end.

(** Lines 164-177: the result is printed, and written to the output file
    when one is given. *)
Definition emit (P : platform) (c : counters) (output_file : option str)
  : M unit :=
  let output := output_of c in
  _ ← print (dumps output);
  match truthy output_file with
  | Some path => write_file P path (dumps output)
  | None => ret tt
  end.

(** Lines 120-123: [json.loads(...)["data"]], then ["download_ids"]. *)
Definition download_ids_of (doc : value) : result value :=
  match getitem doc (lit "data") with
  | Ok export_data => getitem export_data (lit "download_ids")
  | Raise e => Raise e
  end.

(** Lines 117-123: the export is asked for, its body decoded and parsed,
    the download identifiers taken out. *)
Definition resolve (P : platform) (export_id : str) : M value :=
  r ← do_urlopen P (export_url export_id);
  body ← read r;
  text ← decode body;
  doc ← lift (json_loads P text);
  lift (download_ids_of doc).

(** Lines 117-156: the counters of a run. *)
Definition collect (P : platform) (export_id : str) : M counters :=
  download_ids ← resolve P export_id;
  ids ← lift (iterate download_ids);
  process_downloads P export_id download_ids ids init_counters.

(** [process_data(export_id, output_file)]. *)
Definition process_data (P : platform) (export_id : str)
    (output_file : option str) : M unit :=
  c ← collect P export_id;
  emit P c output_file.

(** [main()], after the options are parsed: [0] when [process_data]
    returns, [255] when it raises. *)
Definition main (P : platform) (export_id : str) (output : option str)
  : world -> Z * world :=
  fun w =>
    match process_data P export_id output w with
    | (Ok _, w') => (0, w')
    | (Raise _, w') => (255, w')
    end.

(** The number of occurrences of a character. *)
Fixpoint count_char (c : char) (s : str) : nat :=
  match s with
  | [] => 0%nat
  | x :: s' => ((if (x =? c)%N then 1 else 0) + count_char c s')%nat
  end.

(** A line made of four fields. *)
Definition four_fields (f1 f2 f3 f4 : str) : str :=
  f1 ++ comma :: f2 ++ comma :: f3 ++ comma :: f4.

(** ** Notions used to state the properties *)

(** The inner dictionary of a patient, empty for an unknown patient. *)
Definition inner_of (p : str) (pc : dict (dict Z)) : dict Z :=
  default [] (dict_get p pc).

(** [total_counts[t]] equals the sum over the patients of
    [patient_counts[p][t]], for every event type. *)
Definition totals_consistent (c : counters) : Prop :=
  forall t, count t (total_counts c) = patients_sum t (patient_counts c).

(** Every patient recorded has a non-empty inner dictionary. *)
Definition no_empty_patient (c : counters) : Prop :=
  Forall (fun kv => snd kv <> []) (patient_counts c).

(** The distinct elements of a sequence in the order of their first
    occurrence: scanning from the left, an element not seen before goes to
    the end. *)
Definition see (seen : list str) (x : str) : list str :=
  if decide (x ∈ seen) then seen else seen ++ [x].

Definition first_seen (l : list str) : list str := foldl see [] l.

(** The records of one patient, and the number of records of one type. *)
Definition records_of (p : str) (rs : list event_record)
  : list event_record :=
  filter (fun r => patient_id r = p) rs.

Definition events_of_type (t : str) (rs : list event_record) : Z :=
  Z.of_nat (length (filter (fun r => event_type r = t) rs)).

(** The keys of a dictionary value, in its order, and one of its items. *)
Definition value_keys (v : value) : list str :=
  match v with
  | VDict d => map fst d
  | _ => []
  end.

Definition value_get (key : str) (v : value) : value :=
  match v with
  | VDict d => default VNone (dict_get key d)
  | _ => VNone
  end.

(** Two worlds with the same standard output and the same files. *)
Definition same_output (w w' : world) : Prop :=
  stdout w' = stdout w /\ files w' = files w.

(** The items of the counters as [json] gets them. *)
Definition int_items (d : dict Z) : list (str * value) :=
  map (fun tn => (fst tn, VInt (snd tn))) d.

Definition patient_items (pc : dict (dict Z)) : list (str * value) :=
  map (fun kv => (fst kv, VDict (int_items (snd kv)))) pc.

(** A text of ASCII characters only: one byte per character, and the
    same bytes, in every encoding that extends ASCII. *)
Definition ascii_text (s : str) : Prop := Forall (fun ch => (ch < 128)%N) s.

(** The lines of a response, decoded, when each of them decodes. *)
Fixpoint decode_all (lines : list bytes) : option (list str) :=
  match lines with
  | [] => Some []
  | l :: lines' =>
      match decode_utf8 l, decode_all lines' with
      | Some s, Some ss => Some (s :: ss)
      | _, _ => None
      end
  end.

(** The export answers, its body is read to the end and is UTF-8 text, and
    the text is the JSON of [doc]. *)
Definition export_parsed (P : platform) (export_id : str) (w : world)
    (doc : value) : Prop :=
  exists (body : bytes) (text : str),
    urlopen P (length (requests w)) (export_url export_id)
    = Ok (Response body None)
    /\ decode_utf8 body = Some text
    /\ json_loads P text = Ok doc.

(** The ways the resolution of an export fails, each with the exception it
    ends in.  The request does not complete, or the reading of its body
    fails: the exception of the library, as it is.  The body is not UTF-8
    text: [UnicodeDecodeError].  The text is not JSON: the exception of
    [json.loads], as it is.  The document is no dictionary, or what it has
    under ["data"] is none: [TypeError].  The document has no key
    ["data"], or the dictionary under it no key ["download_ids"]:
    [KeyError] with that key. *)
Inductive resolver_failure (P : platform) (export_id : str) (w : world)
  : exn -> Prop :=
| request_failed e :
    urlopen P (length (requests w)) (export_url export_id) = Raise e ->
    resolver_failure P export_id w e
| read_failed r e :
    urlopen P (length (requests w)) (export_url export_id) = Ok r ->
    failure r = Some e ->
    resolver_failure P export_id w e
| body_not_text body :
    urlopen P (length (requests w)) (export_url export_id)
    = Ok (Response body None) ->
    decode_utf8 body = None ->
    resolver_failure P export_id w UnicodeDecodeError
| body_not_json body text e :
    urlopen P (length (requests w)) (export_url export_id)
    = Ok (Response body None) ->
    decode_utf8 body = Some text ->
    json_loads P text = Raise e ->
    resolver_failure P export_id w e
| document_not_a_dictionary doc :
    export_parsed P export_id w doc ->
    (forall d, doc <> VDict d) ->
    resolver_failure P export_id w TypeError
| data_missing d :
    export_parsed P export_id w (VDict d) ->
    dict_get (lit "data") d = None ->
    resolver_failure P export_id w (KeyError (lit "data"))
| data_not_a_dictionary d data :
    export_parsed P export_id w (VDict d) ->
    dict_get (lit "data") d = Some data ->
    (forall dd, data <> VDict dd) ->
    resolver_failure P export_id w TypeError
| download_ids_missing d dd :
    export_parsed P export_id w (VDict d) ->
    dict_get (lit "data") d = Some (VDict dd) ->
    dict_get (lit "download_ids") dd = None ->
    resolver_failure P export_id w (KeyError (lit "download_ids")).

(** The record stream of a run: the rows of the downloads, in the order of
    the downloads and of their lines.  [downloads_rows P e n ids rs] reads:
    from request number [n] on, the downloads [ids] answer and are read to
    the end, their lines decode, and their rows are [rs]. *)
Inductive downloads_rows (P : platform) (export_id : str)
  : nat -> list value -> list event_record -> Prop :=
| no_download_left n : downloads_rows P export_id n [] []
| next_download n d ids body ss rs :
    urlopen P n (data_url P export_id d) = Ok (Response body None) ->
    decode_all (tail (iter_lines body)) = Some ss ->
    downloads_rows P export_id (S n) ids rs ->
    downloads_rows P export_id n (d :: ids) (omap parse_row ss ++ rs).

Inductive run_rows (P : platform) (export_id : str) (w : world)
  : list event_record -> Prop :=
| run_rows_intro download_ids ids rs :
    fst (resolve P export_id w) = Ok download_ids ->
    iterate download_ids = Ok ids ->
    index_check download_ids = Ok tt ->
    downloads_rows P export_id (S (length (requests w))) ids rs ->
    run_rows P export_id w rs.

(** [sum(total_counts.values())], the number of events line 159 reports. *)
Definition total_events (c : counters) : Z :=
  foldr (fun kv acc => snd kv + acc) 0 (total_counts c).

(** The number of records of one patient and one type. *)
Definition events_of (p t : str) (rs : list event_record) : Z :=
  Z.of_nat (length (filter (fun r => patient_id r = p /\ event_type r = t) rs)).

(** Every count stored, in the totals and for each patient, is at least
    one. *)
Definition counts_positive (c : counters) : Prop :=
  Forall (fun kv => 1 <= snd kv) (total_counts c)
  /\ Forall (fun kv => Forall (fun tn => 1 <= snd tn) (snd kv))
       (patient_counts c).

(** A text of white space only. *)
Definition blank (s : str) : Prop := Forall (fun ch => isspace ch = true) s.

(** A sequence of bytes without a line feed. *)
Definition no_line_feed (b : bytes) : bool :=
  negb (existsb (fun x => Byte.eqb x LF) b).

(** The ways one download fails: its request does not complete; one of
    the lines it hands over after the first is not UTF-8 text; or its
    lines decode and a read of the response fails after them. *)
Inductive download_failure (P : platform) (export_id : str) (n : nat)
    (d : value) : exn -> Prop :=
| download_request_failed e :
    urlopen P n (data_url P export_id d) = Raise e ->
    download_failure P export_id n d e
| download_not_text r :
    urlopen P n (data_url P export_id d) = Ok r ->
    decode_all (tail (iter_lines (delivered r))) = None ->
    download_failure P export_id n d UnicodeDecodeError
| download_read_failed r ss e :
    urlopen P n (data_url P export_id d) = Ok r ->
    decode_all (tail (iter_lines (delivered r))) = Some ss ->
    failure r = Some e ->
    download_failure P export_id n d e.

(** The exception a value under ["download_ids"] that is no list and no
    string leads to: a number, a boolean or [null] has no [len()] (line
    124), a dictionary with a key has no [index] (line 133). *)
Definition ill_typed_error (download_ids : value) : option exn :=
  match download_ids with
  | VNone | VBool _ | VInt _ | VFloat _ => Some TypeError
  | VDict (_ :: _) => Some AttributeError
  | _ => None
  end.


(** The text of a JSON object at nesting depth [level] of a two-space
    indentation: the members are written one per line, in the order of the
    list, each as its quoted key, a colon and a space, and the text of its
    value. *)
Definition object_text (level : nat) (members : list (str * str)) : str :=
  match members with
  | [] => lit "{}"
  | _ :: _ =>
      lit "{" ++ newline_indent (S level)
      ++ join (lit "," ++ newline_indent (S level))
           (map (fun m => encode_basestring_ascii (fst m) ++ lit ": " ++ snd m)
                members)
      ++ newline_indent level ++ lit "}"
  end.

(** The result of a record stream, written with every key at the place of
    its first occurrence in the stream: the patients in the order in which
    they are first seen, under a patient the event types in the order in
    which they are first seen among that patient's records, the totals in
    the order in which the types are first seen; each with the number of
    its records. *)
Definition first_seen_text (rs : list event_record) : str :=
  object_text 0
    [(lit "patients",
      object_text 1
        (map (fun p =>
                (p, object_text 2
                      (map (fun t => (t, str_of_int (events_of p t rs)))
                           (first_seen
                              (map event_type (records_of p rs))))))
             (first_seen (map patient_id rs))));
     (lit "totals",
      object_text 1
        (map (fun t => (t, str_of_int (events_of_type t rs)))
             (first_seen (map event_type rs))))].

(** ** Sample platforms *)

Definition dq : string := String (ascii_of_nat 34) EmptyString.

(** The export document [{"data": {"download_ids": ["d1", "d2"]}}]. *)
Definition demo_json : string :=
  ("{" ++ dq ++ "data" ++ dq ++ ": {" ++ dq ++ "download_ids" ++ dq ++ ": ["
   ++ dq ++ "d1" ++ dq ++ ", " ++ dq ++ "d2" ++ dq ++ "]}}")%string.

Definition demo_document : value :=
  VDict [(lit "data",
          VDict [(lit "download_ids",
                  VList [VStr (lit "d1"); VStr (lit "d2")])])].

(** A local server with the export [demo] and its two downloads, each a
    header and one heart-rate row of patient [P001]. *)
Definition demo_platform : platform :=
  Platform
    (fun _ url =>
       if decide (url = lit "http://localhost:8000/api/export/demo")
       then Ok (Response (blit demo_json) None)
       else if decide (url = lit "http://localhost:8000/api/export/demo/d1/data")
       then Ok (Response (blit "patient_id,event_time,event_type,value
P001,2023-01-01T00:00:00Z,heart_rate,75
") None)
       else if decide (url = lit "http://localhost:8000/api/export/demo/d2/data")
       then Ok (Response (blit "patient_id,event_time,event_type,value
P001,2023-01-01T00:05:00Z,heart_rate,80
") None)
       else Raise (URLError (lit "HTTP Error 404: Not Found")))
    (fun text =>
       if decide (text = lit demo_json) then Ok demo_document
       else Raise (JSONDecodeError (lit "Expecting value")))
    (fun _ => lit "None")
    (fun _ => None)
    (fun _ _ => None).

(** No server is listening. *)
Definition offline_platform : platform :=
  Platform
    (fun _ _ => Raise (URLError (lit "Connection refused")))
    (fun _ => Raise (JSONDecodeError (lit "Expecting value")))
    (fun _ => lit "None")
    (fun _ => None)
    (fun _ _ => None).

(** A server that answers every request with a page that is no JSON. *)
Definition garbled_platform : platform :=
  Platform
    (fun _ _ => Ok (Response (blit "<html>Bad Gateway</html>") None))
    (fun _ => Raise (JSONDecodeError (lit "Expecting value")))
    (fun _ => lit "None")
    (fun _ => None)
    (fun _ _ => None).

(** A platform that answers the requests with given responses in the order
    of the requests, as the repository's tests do with [side_effect], and
    parses every export body to the given document. *)
Definition replay_responses (doc : value) (responses : list response)
  : platform :=
  Platform
    (fun n _ =>
       match responses !! n with
       | Some r => Ok r
       | None => Raise (URLError (lit "no response left"))
       end)
    (fun _ => Ok doc)
    (fun _ => lit "None")
    (fun _ => None)
    (fun _ _ => None).

(** The same, every response being read to its end. *)
Definition replay_platform (doc : value) (responses : list bytes)
  : platform :=
  replay_responses doc (map (fun body => Response body None) responses).

(** The export document with the given download identifiers. *)
Definition export_document (ids : list string) : value :=
  VDict [(lit "data",
          VDict [(lit "download_ids", VList (map (fun i => VStr (lit i)) ids))])].

(** The local server of [demo_platform], on a machine where no file can
    be opened for writing. *)
Definition read_only_platform : platform :=
  Platform (urlopen demo_platform) (json_loads demo_platform)
    (py_str demo_platform)
    (fun _ => Some (OSError (lit "Permission denied")))
    (fun _ _ => None).

(** The local server of [demo_platform], on a machine whose disk is full:
    a file can be opened, and the writing fails with nothing written. *)
Definition full_disk_platform : platform :=
  Platform (urlopen demo_platform) (json_loads demo_platform)
    (py_str demo_platform)
    (fun _ => None)
    (fun _ _ => Some (OSError (lit "No space left on device"), [])).

(** One download whose rows come in an order that is not the sorted one:
    patient [P002] before [P001], type [spo2] before [heart_rate]. *)
Definition unsorted_platform : platform :=
  replay_platform (export_document ["d1"%string])
    [blit "export";
     blit "patient_id,event_time,event_type,value
P002,t0,spo2,98
P001,t1,heart_rate,75
P002,t2,heart_rate,70
"].

(** Nothing printed, no file, no request yet. *)
Definition fresh_world : world := World [] ∅ [].

(** * Properties *)

(** ** Splitting and stripping *)

Section Strings.
Implicit Types (c sep : char) (s f : str).

Lemma count_char_app c s1 s2 :
  count_char c (s1 ++ s2) = (count_char c s1 + count_char c s2)%nat.
Proof. induction s1 as [|x s1 IH]; simpl; [done|]. rewrite IH. lia. Qed.

Lemma count_char_rev c s : count_char c (rev s) = count_char c s.
Proof.
  induction s as [|x s IH]; simpl; [done|].
  rewrite count_char_app, IH. simpl. lia.
Qed.

Lemma count_char_lstrip c s :
  isspace c = false -> count_char c (lstrip s) = count_char c s.
Proof.
  intros Hc. induction s as [|x s IH]; simpl; [done|].
  destruct (isspace x) eqn:Hx; [|done].
  destruct (N.eqb_spec x c) as [->|_]; [congruence|]. by rewrite IH.
Qed.

Lemma count_char_strip c s :
  isspace c = false -> count_char c (strip s) = count_char c s.
Proof.
  intros Hc. unfold strip, rstrip.
  by rewrite count_char_rev, count_char_lstrip, count_char_rev,
    count_char_lstrip.
Qed.

(** The number of fields is one more than the number of separators. *)
Lemma split_length sep s : length (split sep s) = S (count_char sep s).
Proof.
  induction s as [|x s IH]; simpl; [done|].
  destruct (x =? sep)%N; simpl; [by rewrite IH|].
  destruct (split sep s); simpl in *; lia.
Qed.

Lemma split_no_sep sep f : count_char sep f = 0%nat -> split sep f = [f].
Proof.
  induction f as [|x f IH]; simpl; [done|].
  destruct (x =? sep)%N; [done|]. intros H. by rewrite IH.
Qed.

Lemma split_app sep f s :
  count_char sep f = 0%nat -> split sep (f ++ sep :: s) = f :: split sep s.
Proof.
  induction f as [|x f IH]; simpl.
  - intros _. by rewrite N.eqb_refl.
  - destruct (x =? sep)%N; [done|]. intros H. by rewrite IH.
Qed.

(** Stripping stops at the first character that is not white space. *)
Lemma lstrip_app_stop c f s :
  isspace c = false -> lstrip (f ++ c :: s) = lstrip f ++ c :: s.
Proof.
  intros Hc. induction f as [|x f IH]; simpl; [by rewrite Hc|].
  by destruct (isspace x).
Qed.

Lemma rstrip_app_stop c f s :
  isspace c = false -> rstrip (s ++ c :: f) = s ++ c :: rstrip f.
Proof.
  intros Hc. unfold rstrip.
  rewrite rev_app_distr. simpl. rewrite <- app_assoc. simpl.
  rewrite lstrip_app_stop by done.
  rewrite rev_app_distr. simpl. rewrite rev_involutive.
  by rewrite <- app_assoc.
Qed.

Lemma isspace_comma : isspace comma = false.
Proof. reflexivity. Qed.

(** Stripping a line of four fields strips the left of the first field
    and the right of the last one, and nothing else. *)
Lemma strip_four_fields f1 f2 f3 f4 :
  strip (four_fields f1 f2 f3 f4)
  = four_fields (lstrip f1) f2 f3 (rstrip f4).
Proof.
  unfold strip, four_fields.
  rewrite lstrip_app_stop by apply isspace_comma.
  replace (lstrip f1 ++ comma :: f2 ++ comma :: f3 ++ comma :: f4)
    with ((lstrip f1 ++ comma :: f2 ++ comma :: f3) ++ comma :: f4)
    by (rewrite <- !app_assoc; simpl; by rewrite <- !app_assoc).
  rewrite rstrip_app_stop by apply isspace_comma.
  rewrite <- !app_assoc. simpl. by rewrite <- !app_assoc.
Qed.

Lemma split_four_fields f1 f2 f3 f4 :
  count_char comma f1 = 0%nat -> count_char comma f2 = 0%nat ->
  count_char comma f3 = 0%nat -> count_char comma f4 = 0%nat ->
  split comma (four_fields f1 f2 f3 f4) = [f1; f2; f3; f4].
Proof.
  intros H1 H2 H3 H4. unfold four_fields.
  by rewrite !split_app, split_no_sep.
Qed.

(** [parse_row] in terms of the fields of the stripped line. *)
Lemma parse_row_fields line :
  parse_row line =
    match split comma (strip line) with
    | [p; tm; ty; v] => Some (EventRecord p tm ty v)
    | _ => None
    end.
Proof.
  unfold parse_row. destruct (strip line) as [|x s] eqn:Hs; [done|].
  destruct (split comma (x :: s)) as [|a [|b [|c [|d [|e l]]]]]; done.
Qed.

Lemma parse_row_none line :
  length (split comma line) ≠ 4%nat -> parse_row line = None.
Proof.
  intros Hn. rewrite parse_row_fields.
  assert (length (split comma (strip line)) ≠ 4%nat) as Hn'.
  { rewrite split_length, count_char_strip, <- split_length;
      [done | apply isspace_comma]. }
  destruct (split comma (strip line)) as [|a [|b [|c [|d [|e l]]]]];
    simpl in *; done.
Qed.

Lemma parse_row_three_commas line :
  count_char comma (strip line) = 3%nat ->
  exists p tm ty v,
    split comma (strip line) = [p; tm; ty; v]
    /\ parse_row line = Some (EventRecord p tm ty v).
Proof.
  intros Hn. rewrite parse_row_fields.
  pose proof (split_length comma (strip line)) as Hl. rewrite Hn in Hl.
  destruct (split comma (strip line)) as [|a [|b [|c [|d [|e l]]]]];
    simpl in *; try done.
  by exists a, b, c, d.
Qed.
End Strings.

(** ** Dictionaries *)

Section DictFacts.
Context {V : Type}.
Implicit Types (k : str) (v : V) (d : dict V).

Lemma dict_get_set_eq k v d : dict_get k (dict_set k v d) = Some v.
Proof.
  induction d as [|[k' v'] d IH]; simpl.
  - by rewrite decide_True.
  - destruct (decide (k' = k)) as [->|Hne]; simpl.
    + by rewrite decide_True.
    + by rewrite decide_False.
Qed.

Lemma dict_get_set_ne k k' v d :
  k <> k' -> dict_get k' (dict_set k v d) = dict_get k' d.
Proof.
  intros Hne. induction d as [|[k0 v0] d IH]; simpl.
  - by rewrite decide_False.
  - destruct (decide (k0 = k)) as [->|Hne0]; simpl.
    + by rewrite !decide_False.
    + by rewrite IH.
Qed.

Lemma dict_set_set k v v' d :
  dict_set k v (dict_set k v' d) = dict_set k v d.
Proof.
  induction d as [|[k0 v0] d IH]; simpl.
  - by rewrite decide_True.
  - destruct (decide (k0 = k)) as [->|Hne]; simpl.
    + by rewrite decide_True.
    + by rewrite decide_False, IH.
Qed.

(** Storing under a key that is present keeps the keys and their order;
    a new key goes to the end. *)
Lemma keys_dict_set k v d : keys (dict_set k v d) = see (keys d) k.
Proof.
  induction d as [|[k0 v0] d IH].
  - unfold see. rewrite decide_False; [done|]. apply not_elem_of_nil.
  - cbn [dict_set]. destruct (decide (k0 = k)) as [->|Hne].
    + unfold see. rewrite decide_True; [done|]. apply list_elem_of_here.
    + change (keys ((k0, v0) :: dict_set k v d))
        with (k0 :: keys (dict_set k v d)).
      rewrite IH. unfold see.
      change (keys ((k0, v0) :: d)) with (k0 :: keys d).
      destruct (decide (k ∈ keys d)) as [Hin|Hnin].
      * rewrite decide_True; [done|]. by apply list_elem_of_further.
      * rewrite decide_False; [done|]. intros Hin.
        apply elem_of_cons in Hin as [->|Hin]; done.
Qed.

Lemma dict_set_nonempty k v d : dict_set k v d <> [].
Proof. destruct d as [|[k0 v0] d]; simpl; [done|]. by destruct (decide _). Qed.

Lemma Forall_dict_set (Q : str * V -> Prop) k v d :
  (forall k', Q (k', v)) -> Forall Q d -> Forall Q (dict_set k v d).
Proof.
  intros Hv. induction 1 as [|[k0 v0] d H0 Hd IH]; simpl.
  - by constructor.
  - destruct (decide (k0 = k)); constructor; auto.
Qed.

Lemma dict_copy_id d : dict_copy d = d.
Proof. induction d as [|[k0 v0] d IH]; simpl; [done|]. by rewrite IH. Qed.
End DictFacts.

(** ** Counting *)

Section Counting.
Implicit Types (k t p ty : str) (d : dict Z) (pc : dict (dict Z)).

(** An increment is a store of the old count plus one. *)
Lemma increment_set k d : increment k d = dict_set k (count k d + 1) d.
Proof.
  unfold increment, defaultdict_getitem, count.
  destruct (dict_get k d); simpl; [done|]. by rewrite dict_set_set.
Qed.

Lemma count_increment k t d :
  count t (increment k d) = count t d + (if decide (k = t) then 1 else 0).
Proof.
  rewrite increment_set. unfold count at 1.
  destruct (decide (k = t)) as [->|Hne].
  - by rewrite dict_get_set_eq.
  - rewrite dict_get_set_ne by done. unfold count. lia.
Qed.

Lemma keys_increment k d : keys (increment k d) = see (keys d) k.
Proof. rewrite increment_set. apply keys_dict_set. Qed.

(** The increment of one patient is a store of the incremented inner
    dictionary of that patient. *)
Lemma increment_patient_set p ty pc :
  increment_patient p ty pc = dict_set p (increment ty (inner_of p pc)) pc.
Proof.
  unfold increment_patient, defaultdict_getitem, inner_of.
  destruct (dict_get p pc); [reflexivity|].
  rewrite dict_set_set. reflexivity.
Qed.

Lemma inner_of_increment_patient p ty q pc :
  inner_of q (increment_patient p ty pc)
  = if decide (p = q) then increment ty (inner_of q pc) else inner_of q pc.
Proof.
  rewrite increment_patient_set. unfold inner_of at 1.
  destruct (decide (p = q)) as [->|Hne].
  - by rewrite dict_get_set_eq.
  - by rewrite dict_get_set_ne.
Qed.

Lemma keys_increment_patient p ty pc :
  keys (increment_patient p ty pc) = see (keys pc) p.
Proof. rewrite increment_patient_set. apply keys_dict_set. Qed.

Lemma patients_sum_set t p (v : dict Z) pc :
  patients_sum t (dict_set p v pc)
  = patients_sum t pc - count t (inner_of p pc) + count t v.
Proof.
  unfold inner_of. induction pc as [|[k0 v0] pc IH]; simpl.
  - unfold count. simpl. lia.
  - destruct (decide (k0 = p)) as [->|Hne]; simpl; [lia|].
    rewrite IH. lia.
Qed.

Lemma patients_sum_increment t p ty pc :
  patients_sum t (increment_patient p ty pc)
  = patients_sum t pc + (if decide (ty = t) then 1 else 0).
Proof.
  rewrite increment_patient_set, patients_sum_set, count_increment. lia.
Qed.

(** One record keeps the totals equal to the sums over the patients. *)
Lemma totals_consistent_step r c :
  totals_consistent c -> totals_consistent (apply_record r c).
Proof.
  intros H t. unfold apply_record. simpl.
  by rewrite count_increment, patients_sum_increment, H.
Qed.

(** One record leaves no patient with an empty inner dictionary. *)
Lemma no_empty_patient_step r c :
  no_empty_patient c -> no_empty_patient (apply_record r c).
Proof.
  unfold no_empty_patient, apply_record. simpl. intros H.
  rewrite increment_patient_set. apply Forall_dict_set; [|done].
  intros k'. simpl. rewrite increment_set. apply dict_set_nonempty.
Qed.

(** What holds at the start and is kept by every record holds after
    every sequence of records. *)
Lemma apply_records_ind (I : counters -> Prop) rs c :
  (forall r c', I c' -> I (apply_record r c')) ->
  I c -> I (apply_records rs c).
Proof.
  intros Hstep. revert c.
  induction rs as [|r rs IH]; simpl; intros c Hc; [done|].
  apply IH, Hstep, Hc.
Qed.
End Counting.

(** ** Runs *)

Section Runs.
Variable P : platform.
Implicit Types (w : world) (c : counters) (st : loop_state).

Lemma bind_run {A B} (m : M A) (k : A -> M B) w :
  (m ≫= k) w = match m w with
               | (Ok a, w') => k a w'
               | (Raise e, w') => (Raise e, w')
               end.
Proof. reflexivity. Qed.

Lemma counts_process_line s st :
  counts (process_line s st)
  = match parse_row s with
    | Some r => apply_record r (counts st)
    | None => counts st
    end.
Proof. unfold process_line. by destruct (parse_row s). Qed.

(** The lines of a response change nothing but the counters. *)
Lemma process_lines_world lines failure st w :
  snd (process_lines lines failure st w) = w.
Proof.
  revert st. induction lines as [|l lines IH]; intros st; simpl.
  - by destruct failure.
  - rewrite bind_run. unfold decode.
    destruct (decode_utf8 l); simpl; [apply IH|done].
Qed.

(** The loop over a response, outcome by outcome: a line that does not
    decode raises first; when every line decodes, the read that fails
    raises; otherwise the loop ends and has processed the decoded lines
    from first to last. *)
Lemma process_lines_run lines failure st w :
  process_lines lines failure st w
  = (match decode_all lines with
     | Some ss =>
         match failure with
         | Some e => Raise e
         | None => Ok (foldl (fun st s => process_line s st) st ss)
         end
     | None => Raise UnicodeDecodeError
     end, w).
Proof.
  revert st. induction lines as [|l lines IH]; intros st; simpl.
  - by destruct failure.
  - rewrite bind_run. unfold decode.
    destruct (decode_utf8 l) as [s|]; simpl; [|done].
    rewrite IH. by destruct (decode_all lines).
Qed.

Lemma process_lines_decoded lines ss st w :
  decode_all lines = Some ss ->
  process_lines lines None st w
  = (Ok (foldl (fun st s => process_line s st) st ss), w).
Proof. intros Hd. by rewrite process_lines_run, Hd. Qed.

Lemma counts_foldl_process_line ss st :
  counts (foldl (fun st s => process_line s st) st ss)
  = apply_records (omap parse_row ss) (counts st).
Proof.
  revert st. induction ss as [|s ss IH]; intros st; simpl; [done|].
  rewrite IH, counts_process_line. by destruct (parse_row s).
Qed.

Section Invariant.
Variable I : counters -> Prop.
Hypothesis I_step : forall r c, I c -> I (apply_record r c).

Lemma process_lines_inv lines failure st w :
  I (counts st) ->
  match process_lines lines failure st w with
  | (Ok st', _) => I (counts st')
  | (Raise _, _) => True
  end.
Proof.
  revert st. induction lines as [|l lines IH]; intros st Hst; simpl.
  - by destruct failure.
  - rewrite bind_run. unfold decode.
    destruct (decode_utf8 l); simpl; [|done].
    apply IH. rewrite counts_process_line.
    destruct (parse_row _); auto.
Qed.

Lemma process_download_inv e ids d c w :
  I c ->
  match process_download P e ids d c w with
  | (Ok c', _) => I c'
  | (Raise _, _) => True
  end.
Proof.
  intros Hc. unfold process_download. rewrite bind_run.
  unfold lift. destruct (index_check ids); [|done].
  rewrite bind_run. unfold do_urlopen.
  destruct (urlopen P _ _) as [r|]; [|done].
  rewrite bind_run.
  pose proof (process_lines_inv (tail (iter_lines (delivered r))) (failure r)
                (LoopState c 0) (record_request (data_url P e d) w) Hc) as H.
  by destruct (process_lines _ _ _ _) as [[st'|] w'].
Qed.

Lemma process_downloads_inv e ids l c w :
  I c ->
  match process_downloads P e ids l c w with
  | (Ok c', _) => I c'
  | (Raise _, _) => True
  end.
Proof.
  revert c w. induction l as [|d l IH]; intros c w Hc; simpl; [done|].
  rewrite bind_run.
  pose proof (process_download_inv e ids d c w Hc) as H.
  destruct (process_download _ _ _ _ _ _) as [[c'|] w']; [|done].
  by apply IH.
Qed.

Lemma collect_inv e w :
  I init_counters ->
  match collect P e w with
  | (Ok c, _) => I c
  | (Raise _, _) => True
  end.
Proof.
  intros H0. unfold collect. rewrite bind_run.
  destruct (resolve P e w) as [[ids|] w1]; [|done].
  rewrite bind_run. unfold lift. destruct (iterate ids) as [l|]; [|done].
  by apply process_downloads_inv.
Qed.
End Invariant.

(** The resolution of an export, case by case. *)
Lemma resolve_run e w :
  resolve P e w
  = (match urlopen P (length (requests w)) (export_url e) with
     | Raise ex => Raise ex
     | Ok r =>
         match failure r with
         | Some ex => Raise ex
         | None =>
             match decode_utf8 (delivered r) with
             | None => Raise UnicodeDecodeError
             | Some text =>
                 match json_loads P text with
                 | Raise ex => Raise ex
                 | Ok doc => download_ids_of doc
                 end
             end
         end
     end, record_request (export_url e) w).
Proof.
  unfold resolve. rewrite bind_run. unfold do_urlopen.
  destruct (urlopen P _ _) as [r|]; [|done].
  rewrite bind_run. unfold read.
  destruct (failure r); [done|]. simpl.
  rewrite bind_run. unfold decode.
  destruct (decode_utf8 (delivered r)) as [text|]; [|done].
  simpl. rewrite bind_run. unfold lift.
  by destruct (json_loads P text).
Qed.

Lemma resolve_parsed e w doc :
  export_parsed P e w doc ->
  resolve P e w = (download_ids_of doc, record_request (export_url e) w).
Proof.
  intros (body & text & H1 & H2 & H3). rewrite resolve_run, H1. simpl.
  by rewrite H2, H3.
Qed.

Lemma resolve_failure e w ex :
  resolver_failure P e w ex ->
  resolve P e w = (Raise ex, record_request (export_url e) w).
Proof.
  intros H.
  destruct H as [ex H|r ex H1 H2|body H1 H2|body text ex H1 H2 H3
                 |doc Hp Hd|d Hp Hd|d data Hp Hd Hn|d dd Hp Hd Hi].
  - by rewrite resolve_run, H.
  - by rewrite resolve_run, H1, H2.
  - rewrite resolve_run, H1. simpl. by rewrite H2.
  - rewrite resolve_run, H1. simpl. by rewrite H2, H3.
  - rewrite (resolve_parsed _ _ _ Hp). destruct doc; try done.
    by destruct (Hd d).
  - rewrite (resolve_parsed _ _ _ Hp). unfold download_ids_of, getitem.
    by rewrite Hd.
  - rewrite (resolve_parsed _ _ _ Hp). unfold download_ids_of, getitem.
    rewrite Hd. destruct data; try done. by destruct (Hn d0).
  - rewrite (resolve_parsed _ _ _ Hp). unfold download_ids_of, getitem.
    by rewrite Hd, Hi.
Qed.

Lemma emit_run c out w :
  emit P c out w
  = match truthy out with
    | Some path =>
        write_file P path (dumps (output_of c))
          (World (stdout w ++ dumps (output_of c) ++ [10%N]) (files w)
                 (requests w))
    | None =>
        (Ok tt, World (stdout w ++ dumps (output_of c) ++ [10%N]) (files w)
                      (requests w))
    end.
Proof. unfold emit. rewrite bind_run. simpl. by destruct (truthy out). Qed.
End Runs.

(** ** The aggregation invariants *)

(** C1: for every sequence of applied event records, after each record is
    applied (that is, after every prefix of the sequence),
    [total_counts[t]] equals the sum over all patients [p] of
    [patient_counts[p][t]], for every event type [t]; the same holds of
    the counters every run ends the downloads with. *)
Theorem totals_equal_patient_sums :
  (forall (rs : list event_record) (n : nat) (t : str),
      count t (total_counts (apply_records (take n rs) init_counters))
      = patients_sum t
          (patient_counts (apply_records (take n rs) init_counters)))
  /\ (forall (P : platform) (export_id : str) (w : world),
         match collect P export_id w with
         | (Ok c, _) => totals_consistent c
         | (Raise _, _) => True
         end).
Proof.
  assert (totals_consistent init_counters) as H0 by (intros t; reflexivity).
  split.
  - intros rs n.
    apply (apply_records_ind totals_consistent);
      [apply totals_consistent_step | exact H0].
  - intros P e w. apply collect_inv; [apply totals_consistent_step | exact H0].
Qed.

(** C4: after every record applied, and at the end of the downloads of
    every run, every key present in [patient_counts] maps to a non-empty
    inner mapping: no patient is recorded with zero events. *)
Theorem no_patient_without_events :
  (forall (rs : list event_record) (n : nat),
      Forall (fun kv => snd kv <> [])
        (patient_counts (apply_records (take n rs) init_counters)))
  /\ (forall (P : platform) (export_id : str) (w : world),
         match collect P export_id w with
         | (Ok c, _) => Forall (fun kv => snd kv <> []) (patient_counts c)
         | (Raise _, _) => True
         end).
Proof.
  assert (no_empty_patient init_counters) as H0 by constructor.
  split.
  - intros rs n.
    apply (apply_records_ind no_empty_patient);
      [apply no_empty_patient_step | exact H0].
  - intros P e w.
    apply (collect_inv P no_empty_patient);
      [apply no_empty_patient_step | exact H0].
Qed.

(** ** The row parser *)

(** C2: a line whose comma-split field count is not 4 yields no record, and
    the loop state (both counters, and the row count) is the same after the
    line as before it, also when the line is read from the response: a
    response of that one line leaves the state as it was, and within any
    response the loop goes on after the line as if it had not been
    there. *)
Theorem malformed_row_skipped (line : str) (st : loop_state) :
  length (split comma line) <> 4%nat ->
  parse_row line = None
  /\ process_line line st = st
  /\ forall (raw : bytes) (w : world),
       decode_utf8 raw = Some line ->
       process_lines [raw] None st w = (Ok st, w)
       /\ forall (rest : list bytes) (failure : option exn),
            process_lines (raw :: rest) failure st w
            = process_lines rest failure st w.
Proof.
  intros Hn. pose proof (parse_row_none line Hn) as Hp.
  assert (process_line line st = st) as Hst
    by (unfold process_line; by rewrite Hp).
  split; [done|]. split; [done|].
  intros raw w Hraw.
  assert (forall rest failure,
             process_lines (raw :: rest) failure st w
             = process_lines rest failure st w) as Hskip.
  { intros rest failure. cbn [process_lines]. rewrite bind_run.
    unfold decode. rewrite Hraw. simpl. by rewrite Hst. }
  split; [|exact Hskip]. by rewrite Hskip.
Qed.

Lemma malformed_row_skipped_witness :
  length (split comma (lit "malformed,row")) <> 4%nat
  /\ parse_row (lit "malformed,row") = None
  /\ process_line (lit "malformed,row") (LoopState init_counters 0)
     = LoopState init_counters 0.
Proof.
  assert (length (split comma (lit "malformed,row")) <> 4%nat) as Hn
    by (vm_compute; discriminate).
  split; [exact Hn|].
  destruct (malformed_row_skipped (lit "malformed,row")
              (LoopState init_counters 0) Hn) as (H1 & H2 & _).
  split; [exact H1 | exact H2].
Defined.

(** C3, as stated, fails: the line is stripped as a whole before it is
    split, so white space at the left of the first field (and at the right
    of the last) does not reach the record. *)
Lemma fields_not_verbatim :
  ~ (forall f1 f2 f3 f4 : str,
        f1 <> [] -> f2 <> [] -> f3 <> [] -> f4 <> [] ->
        count_char comma f1 = 0%nat -> count_char comma f2 = 0%nat ->
        count_char comma f3 = 0%nat -> count_char comma f4 = 0%nat ->
        parse_row (four_fields f1 f2 f3 f4)
        = Some (EventRecord f1 f2 f3 f4)).
Proof.
  intros H.
  specialize (H (lit " P001") (lit "2023-01-01T00:00:00Z") (lit "heart_rate")
                (lit "75")).
  assert (parse_row (four_fields (lit " P001") (lit "2023-01-01T00:00:00Z")
                      (lit "heart_rate") (lit "75"))
          = Some (EventRecord (lit " P001") (lit "2023-01-01T00:00:00Z")
                    (lit "heart_rate") (lit "75"))) as Hx
    by (apply H; done).
  vm_compute in Hx. discriminate Hx.
Qed.

(** C3, amended: a line of four comma-separated fields always yields a
    record; its second and third fields are the line's, unchanged, its
    first field is the line's without the white space at its left, its
    last field the line's without the white space at its right. *)
Theorem parse_row_four_fields (f1 f2 f3 f4 : str) :
  count_char comma f1 = 0%nat -> count_char comma f2 = 0%nat ->
  count_char comma f3 = 0%nat -> count_char comma f4 = 0%nat ->
  parse_row (four_fields f1 f2 f3 f4)
  = Some (EventRecord (lstrip f1) f2 f3 (rstrip f4)).
Proof.
  intros H1 H2 H3 H4.
  rewrite parse_row_fields, strip_four_fields, split_four_fields; try done.
  - by rewrite count_char_lstrip by apply isspace_comma.
  - unfold rstrip.
    by rewrite count_char_rev, count_char_lstrip, count_char_rev
      by apply isspace_comma.
Qed.

Lemma parse_row_four_fields_witness :
  parse_row (four_fields (lit " P001") (lit " 2023-01-01 ") (lit "heart rate")
               [55%N; 53%N; 13%N; 10%N])
  = Some (EventRecord (lit "P001") (lit " 2023-01-01 ") (lit "heart rate")
            (lit "75")).
Proof.
  exact (parse_row_four_fields (lit " P001") (lit " 2023-01-01 ")
           (lit "heart rate") [55%N; 53%N; 13%N; 10%N]
           eq_refl eq_refl eq_refl eq_refl).
Defined.

(** C10: a line that has exactly three commas once stripped yields a
    record, whatever its fields, the empty string included; the record's
    patient and event type are counted like any other key: the count of
    the type in [total_counts] and in the patient's inner dictionary both
    go up by one. *)
Theorem empty_fields_are_counted (line : str) (st : loop_state) :
  count_char comma (strip line) = 3%nat ->
  exists r : event_record,
    parse_row line = Some r
    /\ split comma (strip line)
       = [patient_id r; event_time r; event_type r; value_field r]
    /\ process_line line st
       = LoopState (apply_record r (counts st)) (row_count st + 1)
    /\ count (event_type r) (total_counts (apply_record r (counts st)))
       = count (event_type r) (total_counts (counts st)) + 1
    /\ count (event_type r)
         (inner_of (patient_id r)
            (patient_counts (apply_record r (counts st))))
       = count (event_type r)
           (inner_of (patient_id r) (patient_counts (counts st))) + 1.
Proof.
  intros Hn.
  destruct (parse_row_three_commas line Hn) as (p & tm & ty & v & Hs & Hp).
  exists (EventRecord p tm ty v). simpl.
  split; [done|]. split; [done|]. split.
  - unfold process_line. by rewrite Hp.
  - split.
    + rewrite count_increment. by rewrite decide_True.
    + rewrite inner_of_increment_patient, decide_True by done.
      rewrite count_increment. by rewrite decide_True.
Qed.

Lemma empty_fields_are_counted_witness :
  count_char comma (strip (lit ",,,")) = 3%nat
  /\ exists r : event_record,
       parse_row (lit ",,,") = Some r
       /\ split comma (strip (lit ",,,"))
          = [patient_id r; event_time r; event_type r; value_field r]
       /\ process_line (lit ",,,") (LoopState init_counters 0)
          = LoopState (apply_record r init_counters) 1
       /\ count (event_type r) (total_counts (apply_record r init_counters))
          = 1
       /\ count (event_type r)
            (inner_of (patient_id r)
               (patient_counts (apply_record r init_counters)))
          = 1.
Proof.
  split; [reflexivity|].
  exact (empty_fields_are_counted (lit ",,,") (LoopState init_counters 0)
           eq_refl).
Defined.

(** The line [",,,"] adds one event of type [""] to patient [""]. *)
Example only_commas_row :
  process_line (lit ",,,") (LoopState init_counters 0)
  = LoopState (Counters [([], [([], 1)])] [([], 1)]) 1.
Proof. reflexivity. Qed.

(** ** What a run leaves in the world *)

Section RunWorld.
Variable P : platform.

Lemma same_output_refl w : same_output w w.
Proof. by split. Qed.

Lemma same_output_trans w1 w2 w3 :
  same_output w1 w2 -> same_output w2 w3 -> same_output w1 w3.
Proof. intros [H1 H2] [H3 H4]. split; congruence. Qed.

Lemma same_output_request url w : same_output w (record_request url w).
Proof. by split. Qed.

Lemma process_download_world e ids d c w :
  same_output w (snd (process_download P e ids d c w)).
Proof.
  unfold process_download. rewrite bind_run. unfold lift.
  destruct (index_check ids); [|apply same_output_refl].
  rewrite bind_run. unfold do_urlopen.
  destruct (urlopen P _ _) as [r|]; [|apply same_output_request].
  rewrite bind_run.
  pose proof (process_lines_world (tail (iter_lines (delivered r)))
                (failure r) (LoopState c 0)
                (record_request (data_url P e d) w)) as H.
  destruct (process_lines _ _ _ _) as [[st'|] w']; simpl in *; subst;
    apply same_output_request.
Qed.

Lemma process_downloads_world e ids l c w :
  same_output w (snd (process_downloads P e ids l c w)).
Proof.
  revert c w. induction l as [|d l IH]; intros c w; simpl;
    [apply same_output_refl|].
  rewrite bind_run.
  pose proof (process_download_world e ids d c w) as H.
  destruct (process_download _ _ _ _ _ _) as [[c'|] w']; simpl in *;
    [|done].
  eapply same_output_trans; [exact H | apply IH].
Qed.

Lemma collect_world e w : same_output w (snd (collect P e w)).
Proof.
  unfold collect. rewrite bind_run, resolve_run.
  destruct (match urlopen P _ _ with Ok _ => _ | Raise _ => _ end)
    as [ids|]; [|apply same_output_request].
  rewrite bind_run. unfold lift.
  destruct (iterate ids) as [l|]; [|apply same_output_request].
  eapply same_output_trans;
    [apply same_output_request | apply process_downloads_world].
Qed.

Lemma process_data_run e out w :
  process_data P e out w
  = match collect P e w with
    | (Ok c, w1) => emit P c out w1
    | (Raise ex, w1) => (Raise ex, w1)
    end.
Proof. reflexivity. Qed.

Lemma collect_resolve_raise e w ex w1 :
  resolve P e w = (Raise ex, w1) -> collect P e w = (Raise ex, w1).
Proof. intros H. unfold collect. by rewrite bind_run, H. Qed.

(** A document without the key path always makes the lookup raise, a
    [KeyError] for a missing key, a [TypeError] where there is no
    dictionary to look into. *)
Lemma download_ids_of_missing doc :
  (forall data ids, getitem doc (lit "data") = Ok data ->
                    getitem data (lit "download_ids") <> Ok ids) ->
  download_ids_of doc = Raise (KeyError (lit "data"))
  \/ download_ids_of doc = Raise (KeyError (lit "download_ids"))
  \/ download_ids_of doc = Raise TypeError.
Proof.
  intros H. unfold download_ids_of.
  destruct (getitem doc (lit "data")) as [data|ex] eqn:Hd.
  - specialize (H data). unfold getitem in *.
    destruct data; auto.
    destruct (dict_get (lit "download_ids") d) as [ids|]; auto.
    by destruct (H ids).
  - unfold getitem in Hd. destruct doc; simplify_eq; auto.
    destruct (dict_get (lit "data") d); simplify_eq; auto.
Qed.
End RunWorld.

(** ** Errors of the export resolver *)

(** C5: every failure of the export resolution reaches the caller as it
    is.  When the request does not complete, or the reading of its body
    fails, [process_data] raises the exception of the library; when the
    body is not valid JSON it raises [UnicodeDecodeError] (not text) or the
    exception of [json.loads]; when the document lacks the key path
    [data.download_ids] it raises [KeyError] with the missing key, or
    [TypeError] where there is no dictionary to look into.  Nothing is
    caught on the way, nothing is printed, no file is written and no
    download is asked for; [main], the caller, reports 255. *)
Theorem resolver_errors_propagate
    (P : platform) (export_id : str) (output_file : option str) (w : world)
    (e : exn) :
  resolver_failure P export_id w e ->
  process_data P export_id output_file w
  = (Raise e, record_request (export_url export_id) w)
  /\ main P export_id output_file w
     = (255, record_request (export_url export_id) w)
  /\ stdout (record_request (export_url export_id) w) = stdout w
  /\ files (record_request (export_url export_id) w) = files w.
Proof.
  intros H. apply resolve_failure, collect_resolve_raise in H.
  assert (process_data P export_id output_file w
          = (Raise e, record_request (export_url export_id) w)) as Hp
    by (by rewrite process_data_run, H).
  split; [exact Hp|]. split; [|done].
  unfold main. by rewrite Hp.
Qed.

Lemma resolver_errors_propagate_witness :
  let w1 := World [] ∅ [lit "http://localhost:8000/api/export/demo"] in
  let no_ids :=
    replay_platform (VDict [(lit "data", VDict [(lit "ids", VList [])])])
      [blit "{}"] in
  (process_data offline_platform (lit "demo") (Some (lit "out.json"))
     fresh_world
   = (Raise (URLError (lit "Connection refused")), w1)
   /\ main offline_platform (lit "demo") (Some (lit "out.json")) fresh_world
      = (255, w1))
  /\ (process_data garbled_platform (lit "demo") (Some (lit "out.json"))
        fresh_world
      = (Raise (JSONDecodeError (lit "Expecting value")), w1)
      /\ main garbled_platform (lit "demo") (Some (lit "out.json"))
           fresh_world
         = (255, w1))
  /\ (process_data no_ids (lit "demo") (Some (lit "out.json")) fresh_world
      = (Raise (KeyError (lit "download_ids")), w1)
      /\ main no_ids (lit "demo") (Some (lit "out.json")) fresh_world
         = (255, w1)).
Proof.
  intros w1 no_ids.
  assert (resolver_failure offline_platform (lit "demo") fresh_world
            (URLError (lit "Connection refused"))) as H1
    by (apply request_failed; reflexivity).
  assert (resolver_failure garbled_platform (lit "demo") fresh_world
            (JSONDecodeError (lit "Expecting value"))) as H2
    by (apply (body_not_json _ _ _ (blit "<html>Bad Gateway</html>")
                 (lit "<html>Bad Gateway</html>")); reflexivity).
  assert (resolver_failure no_ids (lit "demo") fresh_world
            (KeyError (lit "download_ids"))) as H3.
  { apply (download_ids_missing _ _ _
             [(lit "data", VDict [(lit "ids", VList [])])]
             [(lit "ids", VList [])]); [|reflexivity|reflexivity].
    exists (blit "{}"), (lit "{}"). repeat split; reflexivity. }
  destruct (resolver_errors_propagate offline_platform (lit "demo")
              (Some (lit "out.json")) fresh_world _ H1) as (A1 & A2 & _).
  destruct (resolver_errors_propagate garbled_platform (lit "demo")
              (Some (lit "out.json")) fresh_world _ H2) as (B1 & B2 & _).
  destruct (resolver_errors_propagate no_ids (lit "demo")
              (Some (lit "out.json")) fresh_world _ H3) as (C1 & C2 & _).
  split; [split; [exact A1 | exact A2]|].
  split; [split; [exact B1 | exact B2]|].
  split; [exact C1 | exact C2].
Defined.

(** The cases of [resolver_failure] are the only ways the resolution of an
    export fails. *)
Lemma resolver_failure_exhaustive
    (P : platform) (export_id : str) (w : world) (e : exn) :
  fst (resolve P export_id w) = Raise e -> resolver_failure P export_id w e.
Proof.
  rewrite resolve_run. cbn [fst].
  destruct (urlopen P _ _) as [[body [ex|]]|ex] eqn:Hu; cbn [failure delivered].
  - intros [= <-]. by apply (read_failed _ _ _ _ _ Hu).
  - destruct (decode_utf8 body) as [text|] eqn:Hd.
    + destruct (json_loads P text) as [doc|ex] eqn:Hj.
      * assert (export_parsed P export_id w doc) as Hp
          by (by exists body, text).
        unfold download_ids_of, getitem.
        destruct doc as [| | | | | |d];
          try (intros [= <-]; by apply (document_not_a_dictionary _ _ _ _ Hp)).
        destruct (dict_get (lit "data") d) as [data|] eqn:Hdata.
        -- destruct data as [| | | | | |dd];
             try (intros [= <-];
                  by apply (data_not_a_dictionary _ _ _ _ _ Hp Hdata)).
           destruct (dict_get (lit "download_ids") dd) eqn:Hids; [done|].
           intros [= <-]. by apply (download_ids_missing _ _ _ _ _ Hp Hdata).
        -- intros [= <-]. by apply (data_missing _ _ _ _ Hp).
      * intros [= <-]. by apply (body_not_json _ _ _ _ _ _ Hu Hd).
    + intros [= <-]. by apply (body_not_text _ _ _ _ Hu).
  - intros [= <-]. by apply request_failed.
Qed.

(** A document without ["data"], and one whose ["data"] is a list. *)
Example missing_data_key :
  download_ids_of (VDict [(lit "status", VStr (lit "ok"))])
  = Raise (KeyError (lit "data")).
Proof. reflexivity. Qed.

Example data_is_a_list :
  download_ids_of (VDict [(lit "data", VList [])]) = Raise TypeError.
Proof. reflexivity. Qed.

(** ** Emission *)

(** C6, as stated, fails: an output path that is the empty string is
    given, the run succeeds, and no file is written. *)
Lemma empty_output_path_not_written :
  ~ (forall (P : platform) (export_id : str) (output_file : option str)
            (w w' : world),
        process_data P export_id output_file w = (Ok tt, w') ->
        exists text : str,
          stdout w' = stdout w ++ text ++ [10%N]
          /\ forall path : str,
               output_file = Some path -> files w' !! path = Some text).
Proof.
  intros H.
  set (w' := snd (process_data demo_platform (lit "demo") (Some [])
                    fresh_world)).
  assert (process_data demo_platform (lit "demo") (Some []) fresh_world
          = (Ok tt, w')) as Hrun by (vm_compute; reflexivity).
  destruct (H _ _ _ _ _ Hrun) as (text & _ & Hfile).
  specialize (Hfile [] eq_refl).
  assert (files w' !! ([] : str) = None) as Hnone by (vm_compute; reflexivity).
  congruence.
Qed.

(** C6, amended: a successful run always writes the serialized JSON text,
    and a line feed, to standard output; when a non-empty output path is
    given the same text becomes the whole content of that file, whatever
    the file held before; without a path, or with the empty path, no file
    is touched. *)
Theorem emission_writes
    (P : platform) (export_id : str) (output_file : option str)
    (w w' : world) :
  process_data P export_id output_file w = (Ok tt, w') ->
  exists (c : counters) (w1 : world),
    collect P export_id w = (Ok c, w1)
    /\ stdout w' = stdout w ++ dumps (output_of c) ++ [10%N]
    /\ files w'
       = match output_file with
         | Some (ch :: path) =>
             <[ch :: path := dumps (output_of c)]> (files w)
         | _ => files w
         end.
Proof.
  rewrite process_data_run. intros H.
  pose proof (collect_world P export_id w) as [Hout Hfiles].
  destruct (collect P export_id w) as [[c|ex] w1]; [|done].
  simpl in Hout, Hfiles. exists c, w1. split; [done|].
  rewrite emit_run in H.
  destruct output_file as [[|ch path]|]; simpl in H.
  - simplify_eq. simpl. by rewrite Hout, Hfiles.
  - unfold write_file in H. destruct (open_w P (ch :: path)); [done|].
    destruct (write_w P (ch :: path) _) as [[ex reached]|]; [done|].
    simplify_eq. simpl. by rewrite Hout, Hfiles.
  - simplify_eq. simpl. by rewrite Hout, Hfiles.
Qed.

Lemma emission_writes_witness :
  let w0 := World [] {[ lit "out.json" := lit "old content" ]} [] in
  let w' := snd (process_data demo_platform (lit "demo")
                   (Some (lit "out.json")) w0) in
  process_data demo_platform (lit "demo") (Some (lit "out.json")) w0
  = (Ok tt, w')
  /\ exists (c : counters) (w1 : world),
       collect demo_platform (lit "demo") w0 = (Ok c, w1)
       /\ stdout w' = stdout w0 ++ dumps (output_of c) ++ [10%N]
       /\ files w' = <[lit "out.json" := dumps (output_of c)]> (files w0).
Proof.
  intros w0 w'.
  assert (process_data demo_platform (lit "demo") (Some (lit "out.json")) w0
          = (Ok tt, w')) as Hrun by (vm_compute; reflexivity).
  split; [exact Hrun|].
  exact (emission_writes demo_platform (lit "demo") (Some (lit "out.json"))
           w0 w' Hrun).
Defined.

(** The dictionary handed to [json], without the copies. *)
Lemma output_of_items c :
  output_of c
  = VDict [(lit "patients", VDict (patient_items (patient_counts c)));
           (lit "totals", VDict (int_items (total_counts c)))].
Proof.
  unfold output_of, patient_items, int_items. rewrite !dict_copy_id.
  do 4 f_equal. apply map_ext. intros [k d]. simpl.
  by rewrite dict_copy_id.
Qed.

(** ** The text of [json.dumps] is ASCII *)

Section Ascii.
Implicit Types (s sep : str) (lvl : nat).

Lemma ascii_text_app s1 s2 :
  ascii_text s1 -> ascii_text s2 -> ascii_text (s1 ++ s2).
Proof. intros H1 H2. by apply Forall_app. Qed.

Lemma ascii_text_uint (d : Decimal.uint) :
  ascii_text (lit (NilEmpty.string_of_uint d)).
Proof.
  induction d; simpl; try (by constructor);
    (constructor; [by vm_compute | exact IHd]).
Qed.

Lemma ascii_text_int (n : Z) : ascii_text (str_of_int n).
Proof.
  unfold str_of_int, NilZero.string_of_int.
  destruct (Z.to_int n) as [d|d]; unfold NilZero.string_of_uint.
  - destruct d; try apply ascii_text_uint.
    repeat constructor; by vm_compute.
  - change (ascii_text (45%N :: lit (match d with
                                     | Decimal.Nil => "0"%string
                                     | _ => NilEmpty.string_of_uint d
                                     end))).
    constructor; [by vm_compute|].
    destruct d; try apply ascii_text_uint.
    repeat constructor; by vm_compute.
Qed.

Lemma hex_digit_ascii (n : N) : (n < 16)%N -> (hex_digit n < 128)%N.
Proof. unfold hex_digit. destruct (N.ltb_spec n 10); lia. Qed.

Lemma ascii_text_backslash_u (n : N) : ascii_text (backslash_u n).
Proof.
  unfold backslash_u, hex4.
  repeat constructor; try (by vm_compute);
    apply hex_digit_ascii, N.mod_lt; lia.
Qed.

Lemma ascii_text_escape (c : char) : ascii_text (escape_ascii c).
Proof.
  unfold escape_ascii.
  repeat (destruct (_ =? _)%N; [repeat constructor; by vm_compute|]).
  destruct (andb _ _) eqn:Hp.
  - apply andb_true_iff in Hp as [_ Hp%N.leb_le].
    constructor; [lia|constructor].
  - destruct (_ <? _)%N;
      [|apply ascii_text_app]; apply ascii_text_backslash_u.
Qed.

Lemma ascii_text_basestring s : ascii_text (encode_basestring_ascii s).
Proof.
  unfold encode_basestring_ascii.
  apply ascii_text_app; [repeat constructor; by vm_compute|].
  apply ascii_text_app; [|repeat constructor; by vm_compute].
  induction s as [|c s IH]; simpl; [constructor|].
  apply ascii_text_app; [apply ascii_text_escape | exact IH].
Qed.

Lemma ascii_text_newline_indent lvl : ascii_text (newline_indent lvl).
Proof.
  unfold newline_indent. constructor; [by vm_compute|].
  induction (2 * lvl)%nat; simpl; constructor; [by vm_compute | done].
Qed.

Lemma ascii_text_join sep (parts : list str) :
  ascii_text sep -> Forall ascii_text parts -> ascii_text (join sep parts).
Proof.
  intros Hsep. induction 1 as [|p parts Hp Hparts IH]; simpl; [constructor|].
  destruct parts as [|q parts]; [done|].
  apply ascii_text_app; [done|]. by apply ascii_text_app.
Qed.

(** A dictionary is written item by item, in its own order. *)
Lemma encode_dict_cons lvl (kv : str * value) (d : list (str * value)) :
  encode lvl (VDict (kv :: d))
  = lit "{" ++ newline_indent (S lvl)
    ++ join (lit "," ++ newline_indent (S lvl))
         (map (fun kv => encode_basestring_ascii (fst kv) ++ lit ": "
                         ++ encode (S lvl) (snd kv)) (kv :: d))
    ++ newline_indent lvl ++ lit "}".
Proof. reflexivity. Qed.

Lemma ascii_text_dict lvl (d : list (str * value)) :
  Forall (fun kv => ascii_text (encode (S lvl) (snd kv))) d ->
  ascii_text (encode lvl (VDict d)).
Proof.
  intros Hd. destruct d as [|kv d]; [repeat constructor; by vm_compute|].
  rewrite encode_dict_cons.
  apply ascii_text_app; [repeat constructor; by vm_compute|].
  apply ascii_text_app; [apply ascii_text_newline_indent|].
  apply ascii_text_app.
  - apply ascii_text_join.
    + apply ascii_text_app;
        [repeat constructor; by vm_compute | apply ascii_text_newline_indent].
    + apply Forall_map. eapply Forall_impl; [exact Hd|].
      intros [k v] Hv. cbn [fst snd] in *.
      apply ascii_text_app; [apply ascii_text_basestring|].
      apply ascii_text_app; [repeat constructor; by vm_compute | exact Hv].
  - apply ascii_text_app;
      [apply ascii_text_newline_indent | repeat constructor; by vm_compute].
Qed.

Lemma ascii_text_int_items lvl (d : dict Z) :
  ascii_text (encode lvl (VDict (int_items d))).
Proof.
  apply ascii_text_dict. unfold int_items. apply Forall_map.
  apply Forall_forall. intros [k n] _. apply ascii_text_int.
Qed.

(** The text of a result is ASCII, whatever the patient identifiers and
    the event types are. *)
Lemma ascii_text_output (c : counters) : ascii_text (dumps (output_of c)).
Proof.
  unfold dumps. rewrite output_of_items. apply ascii_text_dict.
  repeat constructor; simpl snd.
  - apply ascii_text_dict. unfold patient_items. apply Forall_map.
    apply Forall_forall. intros [k d] _. apply ascii_text_int_items.
  - apply ascii_text_int_items.
Qed.
End Ascii.

(** C7: the text of an emission is a function of the counters alone.  For
    given counters there is one text, made of ASCII characters only, so
    that equal texts are equal bytes, that every emission of these
    counters writes, whatever the platform, the output path and the world
    it starts from: standard output receives that text and a line feed,
    and so it does again when the same counters are emitted a second time
    after the first; an emission that returns with an output file leaves
    exactly that text in the file, the first time and the second. *)
Theorem emission_deterministic (c : counters) :
  exists text : str,
    ascii_text text
    /\ forall (P : platform) (output_file : option str) (w : world),
         let r1 := emit P c output_file w in
         let r2 := emit P c output_file (snd r1) in
         stdout (snd r1) = stdout w ++ text ++ [10%N]
         /\ stdout (snd r2) = stdout (snd r1) ++ text ++ [10%N]
         /\ match truthy output_file with
            | Some path =>
                match fst r1 with
                | Ok _ => files (snd r1) !! path = Some text
                | Raise _ => True
                end
                /\ match fst r2 with
                   | Ok _ => files (snd r2) !! path = Some text
                   | Raise _ => True
                   end
            | None => files (snd r1) = files w /\ files (snd r2) = files w
            end.
Proof.
  exists (dumps (output_of c)). split; [apply ascii_text_output|].
  intros P output_file w r1 r2. subst r2 r1. rewrite !emit_run.
  destruct (truthy output_file) as [path|]; [|done].
  unfold write_file. destruct (open_w P path); [done|].
  destruct (write_w P path _) as [[ex reached]|]; [done|].
  cbn [fst snd stdout files]. by rewrite !lookup_insert_eq.
Qed.

(** ** The order of the keys *)

Section KeyOrder.
Implicit Types (rs : list event_record) (c : counters) (p t : str).

Lemma keys_totals_apply_records rs c :
  keys (total_counts (apply_records rs c))
  = foldl see (keys (total_counts c)) (map event_type rs).
Proof.
  revert c. induction rs as [|r rs IH]; intros c; simpl; [done|].
  unfold apply_records in *. simpl. rewrite IH. simpl.
  by rewrite keys_increment.
Qed.

Lemma keys_patients_apply_records rs c :
  keys (patient_counts (apply_records rs c))
  = foldl see (keys (patient_counts c)) (map patient_id rs).
Proof.
  revert c. induction rs as [|r rs IH]; intros c; simpl; [done|].
  unfold apply_records in *. simpl. rewrite IH. simpl.
  by rewrite keys_increment_patient.
Qed.

Lemma inner_of_apply_records p rs c :
  inner_of p (patient_counts (apply_records rs c))
  = foldl (fun d r => increment (event_type r) d)
      (inner_of p (patient_counts c)) (records_of p rs).
Proof.
  revert c. induction rs as [|r rs IH]; intros c; simpl; [done|].
  unfold apply_records, records_of in *. simpl. rewrite IH. simpl.
  rewrite inner_of_increment_patient, filter_cons.
  by destruct (decide (patient_id r = p)).
Qed.

Lemma keys_foldl_increment (l : list event_record) (d : dict Z) :
  keys (foldl (fun d r => increment (event_type r) d) d l)
  = foldl see (keys d) (map event_type l).
Proof.
  revert d. induction l as [|r l IH]; intros d; simpl; [done|].
  by rewrite IH, keys_increment.
Qed.

(** The count of a type in [total_counts] is the number of records of
    that type. *)
Lemma count_total_apply_records t rs c :
  count t (total_counts (apply_records rs c))
  = count t (total_counts c) + events_of_type t rs.
Proof.
  unfold events_of_type.
  revert c. induction rs as [|r rs IH]; intros c; simpl; [lia|].
  unfold apply_records in *. simpl. rewrite IH. simpl.
  rewrite count_increment, filter_cons.
  destruct (decide (event_type r = t)); simpl; lia.
Qed.

Lemma dict_get_map {A B} (f : A -> B) (k : str) (d : dict A) :
  dict_get k (map (fun kv => (fst kv, f (snd kv))) d) = f <$> dict_get k d.
Proof.
  induction d as [|[k0 v0] d IH]; simpl; [done|].
  by destruct (decide (k0 = k)).
Qed.

Lemma keys_int_items (d : dict Z) : map fst (int_items d) = keys d.
Proof. unfold int_items, keys. rewrite map_map. by apply map_ext. Qed.

Lemma keys_patient_items (pc : dict (dict Z)) :
  map fst (patient_items pc) = keys pc.
Proof. unfold patient_items, keys. rewrite map_map. by apply map_ext. Qed.

Lemma value_get_patients c :
  value_get (lit "patients") (output_of c)
  = VDict (patient_items (patient_counts c)).
Proof.
  rewrite output_of_items. unfold value_get. cbn [dict_get].
  by rewrite decide_True.
Qed.

Lemma value_get_totals c :
  value_get (lit "totals") (output_of c)
  = VDict (int_items (total_counts c)).
Proof. rewrite output_of_items. reflexivity. Qed.

Lemma value_keys_patient p (pc : dict (dict Z)) :
  value_keys (value_get p (VDict (patient_items pc))) = keys (inner_of p pc).
Proof.
  unfold value_get, patient_items, inner_of.
  rewrite (dict_get_map (fun d => VDict (int_items d))).
  destruct (dict_get p pc) as [d|]; simpl; [apply keys_int_items|done].
Qed.
End KeyOrder.

(** In the value handed to [json.dumps] the patients come in the order in
    which each patient was first seen in the record stream, the event
    types of a patient in the order in which they were first seen among
    that patient's records, and the types of the totals in the order in
    which they were first seen in the stream. *)
Lemma output_keys_first_seen (rs : list event_record) :
  let output := output_of (apply_records rs init_counters) in
  value_keys output = [lit "patients"; lit "totals"]
  /\ value_keys (value_get (lit "patients") output)
     = first_seen (map patient_id rs)
  /\ (forall p : str,
         value_keys (value_get p (value_get (lit "patients") output))
         = first_seen (map event_type (records_of p rs)))
  /\ value_keys (value_get (lit "totals") output)
     = first_seen (map event_type rs).
Proof.
  intros output. subst output. split; [by rewrite output_of_items|].
  rewrite value_get_patients, value_get_totals.
  split.
  { cbn [value_keys]. rewrite keys_patient_items.
    apply keys_patients_apply_records. }
  split.
  { intros p. rewrite value_keys_patient, inner_of_apply_records.
    apply keys_foldl_increment. }
  cbn [value_keys]. rewrite keys_int_items.
  apply keys_totals_apply_records.
Qed.

(** Patient [P002] seen before [P001], type [spo2] before [heart_rate]:
    the text has them in that order. *)
Example no_sorting :
  dumps (output_of (apply_records
           [EventRecord (lit "P002") (lit "t0") (lit "spo2") (lit "98");
            EventRecord (lit "P001") (lit "t1") (lit "heart_rate") (lit "75");
            EventRecord (lit "P002") (lit "t2") (lit "heart_rate") (lit "70")]
           init_counters))
  = lit "{
  " ++ encode_basestring_ascii (lit "patients") ++ lit ": {
    " ++ encode_basestring_ascii (lit "P002") ++ lit ": {
      " ++ encode_basestring_ascii (lit "spo2") ++ lit ": 1,
      " ++ encode_basestring_ascii (lit "heart_rate") ++ lit ": 1
    },
    " ++ encode_basestring_ascii (lit "P001") ++ lit ": {
      " ++ encode_basestring_ascii (lit "heart_rate") ++ lit ": 1
    }
  },
  " ++ encode_basestring_ascii (lit "totals") ++ lit ": {
    " ++ encode_basestring_ascii (lit "spo2") ++ lit ": 1,
    " ++ encode_basestring_ascii (lit "heart_rate") ++ lit ": 2
  }
}".
Proof. vm_compute. reflexivity. Qed.

(** ** Several downloads *)

(** A download whose response arrives and decodes adds the rows of its
    lines, the first line apart, to the counters it is given. *)
Lemma process_download_rows P e ids d c w body ss :
  index_check ids = Ok tt ->
  urlopen P (length (requests w)) (data_url P e d)
  = Ok (Response body None) ->
  decode_all (tail (iter_lines body)) = Some ss ->
  process_download P e ids d c w
  = (Ok (apply_records (omap parse_row ss) c),
     record_request (data_url P e d) w).
Proof.
  intros Hi Hu Hd. unfold process_download. rewrite bind_run.
  unfold lift. rewrite Hi. rewrite bind_run. unfold do_urlopen. rewrite Hu.
  cbn [delivered failure].
  rewrite bind_run, (process_lines_decoded _ ss) by done.
  unfold mret, M_ret, ret. by rewrite counts_foldl_process_line.
Qed.

Lemma apply_two_records p t1 t2 ty v1 v2 :
  apply_records [EventRecord p t1 ty v1; EventRecord p t2 ty v2] init_counters
  = Counters [(p, [(ty, 2)])] [(ty, 2)].
Proof.
  unfold apply_records, apply_record, init_counters. simpl.
  rewrite !increment_patient_set, !increment_set.
  unfold inner_of, count. simpl.
  rewrite !decide_True by done. simpl. by rewrite !decide_True.
Qed.

Lemma apply_records_app rs1 rs2 c :
  apply_records (rs1 ++ rs2) c = apply_records rs2 (apply_records rs1 c).
Proof. unfold apply_records. by rewrite foldl_app. Qed.

(** When all the downloads answer and decode, the loop ends with the
    counters of their rows, taken in order. *)
Lemma process_downloads_rows P e ids0 ids rs c w :
  index_check ids0 = Ok tt ->
  downloads_rows P e (length (requests w)) ids rs ->
  exists w', process_downloads P e ids0 ids c w
             = (Ok (apply_records rs c), w').
Proof.
  intros Hi. revert rs c w.
  induction ids as [|d ids IH]; intros rs c w H; inversion H; subst; simpl.
  - by eexists.
  - rewrite bind_run.
    rewrite (process_download_rows _ _ _ _ _ _ body ss) by done.
    rewrite apply_records_app. apply IH. simpl.
    rewrite length_app. simpl.
    by replace (length (requests w) + 1)%nat with (S (length (requests w)))
      by lia.
Qed.

(** A run whose requests all answer ends the downloads with the counters
    of its record stream, and prints their text. *)
Lemma collect_rows P e w rs :
  run_rows P e w rs ->
  fst (collect P e w) = Ok (apply_records rs init_counters).
Proof.
  intros [download_ids ids rs' Hres Hit Hi Hrows].
  unfold collect. rewrite bind_run.
  rewrite resolve_run in *. simpl in Hres. rewrite Hres.
  rewrite bind_run. unfold lift. rewrite Hit.
  destruct (process_downloads_rows P e download_ids ids rs' init_counters
              (record_request (export_url e) w) Hi) as [w' Hw'].
  { simpl. rewrite length_app. simpl.
    by replace (length (requests w) + 1)%nat with (S (length (requests w)))
      by lia. }
  by rewrite Hw'.
Qed.

Lemma process_data_rows P e w rs :
  run_rows P e w rs ->
  exists w1,
    process_data P e None w
    = (Ok tt,
       World (stdout w
              ++ dumps (output_of (apply_records rs init_counters))
              ++ [10%N])
             (files w) (requests w1)).
Proof.
  intros H. apply collect_rows in H.
  pose proof (collect_world P e w) as [Hout Hfiles].
  rewrite process_data_run.
  destruct (collect P e w) as [[c|ex] w1]; simpl in *; [|done].
  simplify_eq. exists w1. rewrite emit_run. simpl.
  by rewrite Hout, Hfiles.
Qed.

(** C9: an export of two downloads, each contributing one valid row, both
    rows of the same patient and event type: the downloads are requested
    one after the other in list order, the counts add up across them, and
    the result printed has [patients.<id>.<type> == 2] and
    [totals.<type> == 2], and nothing else. *)
Theorem two_downloads_accumulate
    (P : platform) (export_id : str) (w : world) (d1 d2 : value)
    (b1 b2 : bytes) (ss1 ss2 : list str) (r1 r2 : event_record) :
  fst (resolve P export_id w) = Ok (VList [d1; d2]) ->
  urlopen P (length (requests w) + 1) (data_url P export_id d1)
  = Ok (Response b1 None) ->
  urlopen P (length (requests w) + 2) (data_url P export_id d2)
  = Ok (Response b2 None) ->
  decode_all (tail (iter_lines b1)) = Some ss1 ->
  decode_all (tail (iter_lines b2)) = Some ss2 ->
  omap parse_row ss1 = [r1] ->
  omap parse_row ss2 = [r2] ->
  patient_id r2 = patient_id r1 ->
  event_type r2 = event_type r1 ->
  process_data P export_id None w
  = (Ok tt,
     World
       (stdout w
        ++ dumps (VDict
             [(lit "patients",
               VDict [(patient_id r1, VDict [(event_type r1, VInt 2)])]);
              (lit "totals", VDict [(event_type r1, VInt 2)])])
        ++ [10%N])
       (files w)
       (requests w ++ [export_url export_id; data_url P export_id d1;
                       data_url P export_id d2])).
Proof.
  intros Hres H1 H2 Hd1 Hd2 Hr1 Hr2 Hp Ht.
  assert (resolve P export_id w
          = (Ok (VList [d1; d2]), record_request (export_url export_id) w))
    as Hres'.
  { rewrite resolve_run in *. simpl in Hres. by rewrite Hres. }
  rewrite process_data_run. unfold collect.
  rewrite bind_run, Hres', bind_run. simpl.
  rewrite bind_run.
  rewrite (process_download_rows _ _ _ _ _ _ b1 ss1); try done;
    [|by simpl; rewrite length_app].
  rewrite bind_run.
  rewrite (process_download_rows _ _ _ _ _ _ b2 ss2); try done.
  2:{ simpl. rewrite !length_app. simpl.
      by replace (length (requests w) + 1 + 1)%nat
        with (length (requests w) + 2)%nat by lia. }
  rewrite Hr1, Hr2. simpl.
  destruct r1 as [p t1 ty v1], r2 as [p2 t2 ty2 v2]. simpl in *. subst.
  pose proof (apply_two_records p t1 t2 ty v1 v2) as Hc.
  unfold apply_records in Hc. simpl in Hc. rewrite Hc.
  rewrite emit_run. simpl. unfold record_request. simpl.
  by rewrite <- !app_assoc.
Qed.

Lemma two_downloads_accumulate_witness :
  process_data demo_platform (lit "demo") None fresh_world
  = (Ok tt,
     World
       (dumps (VDict
          [(lit "patients",
            VDict [(lit "P001", VDict [(lit "heart_rate", VInt 2)])]);
           (lit "totals", VDict [(lit "heart_rate", VInt 2)])])
        ++ [10%N])
       ∅
       [lit "http://localhost:8000/api/export/demo";
        lit "http://localhost:8000/api/export/demo/d1/data";
        lit "http://localhost:8000/api/export/demo/d2/data"]).
Proof.
  exact (two_downloads_accumulate demo_platform (lit "demo") fresh_world
           (VStr (lit "d1")) (VStr (lit "d2")) _ _
           [lit "P001,2023-01-01T00:00:00Z,heart_rate,75" ++ [10%N]]
           [lit "P001,2023-01-01T00:05:00Z,heart_rate,80" ++ [10%N]]
           (EventRecord (lit "P001") (lit "2023-01-01T00:00:00Z")
              (lit "heart_rate") (lit "75"))
           (EventRecord (lit "P001") (lit "2023-01-01T00:05:00Z")
              (lit "heart_rate") (lit "80"))
           eq_refl eq_refl eq_refl eq_refl eq_refl eq_refl eq_refl eq_refl
           eq_refl).
Defined.

(** ** The scenarios of the tests *)

(** [test_process_data_basic]: one download with one row. *)
Example one_row :
  process_data
    (replay_platform (export_document ["test-id"%string])
       [blit "export";
        blit "patient_id,event_time,event_type,value
P001,2023-01-01T00:00:00Z,heart_rate,75
"])
    (lit "demo") None fresh_world
  = (Ok tt,
     World
       (dumps (VDict
          [(lit "patients",
            VDict [(lit "P001", VDict [(lit "heart_rate", VInt 1)])]);
           (lit "totals", VDict [(lit "heart_rate", VInt 1)])])
        ++ [10%N])
       ∅
       [lit "http://localhost:8000/api/export/demo";
        lit "http://localhost:8000/api/export/demo/test-id/data"]).
Proof. vm_compute. reflexivity. Qed.

(** [test_process_data_malformed_row]: the malformed row in the middle
    contributes nothing. *)
Example malformed_row_in_the_middle :
  process_data
    (replay_platform (export_document ["test-id"%string])
       [blit "export";
        blit "patient_id,event_time,event_type,value
P001,2023-01-01T00:00:00Z,heart_rate,75
malformed,row
P002,2023-01-01T00:00:00Z,spo2,98
"])
    (lit "demo") None fresh_world
  = (Ok tt,
     World
       (dumps (VDict
          [(lit "patients",
            VDict [(lit "P001", VDict [(lit "heart_rate", VInt 1)]);
                   (lit "P002", VDict [(lit "spo2", VInt 1)])]);
           (lit "totals",
            VDict [(lit "heart_rate", VInt 1); (lit "spo2", VInt 1)])])
        ++ [10%N])
       ∅
       [lit "http://localhost:8000/api/export/demo";
        lit "http://localhost:8000/api/export/demo/test-id/data"]).
Proof. vm_compute. reflexivity. Qed.

(** An export without downloads: both mappings are empty, and written on
    one line each. *)
Example no_download :
  process_data (replay_platform (export_document []) [blit "export"])
    (lit "demo") None fresh_world
  = (Ok tt,
     World
       (lit "{
  " ++ encode_basestring_ascii (lit "patients") ++ lit ": {},
  " ++ encode_basestring_ascii (lit "totals") ++ lit ": {}
}
")
       ∅
       [lit "http://localhost:8000/api/export/demo"]).
Proof. vm_compute. reflexivity. Qed.

(** A response cut short kills the run with the decoder's exception, after
    the rows before it were counted and before anything is printed. *)
Example undecodable_line :
  process_data
    (replay_platform (export_document ["test-id"%string])
       [blit "export"; [Byte.x68; LF; Byte.xc3; LF]])
    (lit "demo") None fresh_world
  = (Raise UnicodeDecodeError,
     World [] ∅
       [lit "http://localhost:8000/api/export/demo";
        lit "http://localhost:8000/api/export/demo/test-id/data"]).
Proof. vm_compute. reflexivity. Qed.

(** * Further properties of the aggregation *)

(** ** What the counts count *)

Section Counts.
Implicit Types (rs : list event_record) (c : counters) (p t : str)
  (d : dict Z).

Lemma count_foldl_increment t (l : list event_record) d :
  count t (foldl (fun d r => increment (event_type r) d) d l)
  = count t d + Z.of_nat (length (filter (fun r => event_type r = t) l)).
Proof.
  revert d. induction l as [|r l IH]; intros d; simpl; [lia|].
  rewrite IH, count_increment, filter_cons.
  destruct (decide (event_type r = t)); simpl; lia.
Qed.

Lemma count_inner_apply_records p t rs c :
  count t (inner_of p (patient_counts (apply_records rs c)))
  = count t (inner_of p (patient_counts c)) + events_of p t rs.
Proof.
  rewrite inner_of_apply_records, count_foldl_increment.
  unfold records_of, events_of. rewrite list_filter_filter.
  do 3 f_equal. apply list_filter_iff. intros r. tauto.
Qed.

Lemma sum_values_set (k : str) (v : Z) d :
  foldr (fun kv acc => snd kv + acc) 0 (dict_set k v d)
  = foldr (fun kv acc => snd kv + acc) 0 d - count k d + v.
Proof.
  unfold count. induction d as [|[k0 v0] d IH]; simpl; [lia|].
  destruct (decide (k0 = k)); simpl; lia.
Qed.

Lemma total_events_apply_records rs c :
  total_events (apply_records rs c)
  = total_events c + Z.of_nat (length rs).
Proof.
  revert c. induction rs as [|r rs IH]; intros c; simpl; [lia|].
  unfold apply_records in *. simpl. rewrite IH.
  unfold total_events, apply_record. simpl.
  rewrite increment_set, sum_values_set. lia.
Qed.

Lemma count_nonneg (k : str) d :
  Forall (fun kv => 1 <= snd kv) d -> 0 <= count k d.
Proof.
  unfold count. induction 1 as [|[k0 v0] d H0 Hd IH]; simpl; [lia|].
  destruct (decide (k0 = k)); simpl in *; lia.
Qed.

Lemma increment_positive (k : str) d :
  Forall (fun kv => 1 <= snd kv) d ->
  Forall (fun kv => 1 <= snd kv) (increment k d).
Proof.
  intros Hd. rewrite increment_set. apply Forall_dict_set; [|done].
  intros k'. simpl. pose proof (count_nonneg k d Hd). lia.
Qed.

Lemma inner_of_positive p (pc : dict (dict Z)) :
  Forall (fun kv => Forall (fun tn => 1 <= snd tn) (snd kv)) pc ->
  Forall (fun tn => 1 <= snd tn) (inner_of p pc).
Proof.
  unfold inner_of. induction 1 as [|[k0 v0] pc H0 Hpc IH]; simpl; [done|].
  by destruct (decide (k0 = p)).
Qed.

Lemma counts_positive_step r c :
  counts_positive c -> counts_positive (apply_record r c).
Proof.
  intros [Ht Hp]. split; simpl.
  - by apply increment_positive.
  - rewrite increment_patient_set. apply Forall_dict_set; [|done].
    intros k'. simpl. by apply increment_positive, inner_of_positive.
Qed.
Lemma count_rows rs p t :
  count t (inner_of p (patient_counts (apply_records rs init_counters)))
  = events_of p t rs
  /\ count t (total_counts (apply_records rs init_counters))
     = events_of_type t rs.
Proof.
  split.
  - rewrite count_inner_apply_records. reflexivity.
  - rewrite count_total_apply_records. reflexivity.
Qed.
End Counts.

(** X1: after any sequence of records, [patient_counts[p][t]] is the
    number of records of patient [p] and type [t], and [total_counts[t]]
    the number of records of type [t]; a pair never seen reads zero. *)
Theorem counts_are_row_counts (rs : list event_record) (p t : str) :
  count t (inner_of p (patient_counts (apply_records rs init_counters)))
  = events_of p t rs
  /\ count t (total_counts (apply_records rs init_counters))
     = events_of_type t rs.
Proof. apply count_rows. Qed.

(** X2: the number of events reported at the end of the downloads,
    [sum(total_counts.values())], is the number of rows that were
    counted. *)
Theorem total_events_is_row_count (rs : list event_record) :
  total_events (apply_records rs init_counters) = Z.of_nat (length rs).
Proof. rewrite total_events_apply_records. reflexivity. Qed.

(** X3: no count stored is zero or negative, neither in the totals nor
    under a patient, after any sequence of records and at the end of the
    downloads of any run. *)
Theorem stored_counts_positive :
  (forall rs : list event_record,
      counts_positive (apply_records rs init_counters))
  /\ (forall (P : platform) (export_id : str) (w : world),
         match collect P export_id w with
         | (Ok c, _) => counts_positive c
         | (Raise _, _) => True
         end).
Proof.
  assert (counts_positive init_counters) as H0 by (split; constructor).
  split.
  - intros rs. apply (apply_records_ind counts_positive);
      [apply counts_positive_step | exact H0].
  - intros P e w. apply (collect_inv P counts_positive);
      [apply counts_positive_step | exact H0].
Qed.

(** ** Which keys there are *)

Section Keys.
Implicit Types (l acc : list str) (x : str).

Lemma elem_of_see acc x y : y ∈ see acc x <-> y ∈ acc \/ y = x.
Proof.
  unfold see. destruct (decide (x ∈ acc)) as [Hin|Hnin].
  - split; [by left|]. intros [H| ->]; done.
  - rewrite elem_of_app, list_elem_of_singleton. tauto.
Qed.

Lemma NoDup_see acc x : NoDup acc -> NoDup (see acc x).
Proof.
  intros Hacc. unfold see. destruct (decide (x ∈ acc)) as [Hin|Hnin]; [done|].
  apply NoDup_app. split; [done|]. split; [|apply NoDup_singleton].
  intros y Hy Hyx. apply list_elem_of_singleton in Hyx. by subst.
Qed.

Lemma elem_of_foldl_see l acc y :
  y ∈ foldl see acc l <-> y ∈ acc \/ y ∈ l.
Proof.
  revert acc. induction l as [|x l IH]; intros acc; simpl.
  - rewrite elem_of_nil. tauto.
  - rewrite IH, elem_of_see, elem_of_cons. tauto.
Qed.

Lemma NoDup_foldl_see l acc : NoDup acc -> NoDup (foldl see acc l).
Proof.
  revert acc. induction l as [|x l IH]; intros acc Hacc; simpl; [done|].
  by apply IH, NoDup_see.
Qed.

Lemma elem_of_first_seen l y : y ∈ first_seen l <-> y ∈ l.
Proof.
  unfold first_seen. rewrite elem_of_foldl_see, elem_of_nil. tauto.
Qed.

Lemma NoDup_first_seen l : NoDup (first_seen l).
Proof. apply NoDup_foldl_see, NoDup_nil_2. Qed.
End Keys.

(** X4: the patients of the result are exactly the patients of the
    records, each once; the types under a patient are exactly the types of
    that patient's records, each once; the types of the totals are exactly
    the types of the records, each once. *)
Theorem keys_are_the_distinct_values (rs : list event_record) :
  let c := apply_records rs init_counters in
  (NoDup (keys (patient_counts c))
   /\ forall p, p ∈ keys (patient_counts c)
                <-> exists r, r ∈ rs /\ patient_id r = p)
  /\ (forall p,
         NoDup (keys (inner_of p (patient_counts c)))
         /\ forall t, t ∈ keys (inner_of p (patient_counts c))
                      <-> exists r, r ∈ rs /\ patient_id r = p
                                    /\ event_type r = t)
  /\ (NoDup (keys (total_counts c))
      /\ forall t, t ∈ keys (total_counts c)
                   <-> exists r, r ∈ rs /\ event_type r = t).
Proof.
  intros c. subst c.
  pose proof (keys_patients_apply_records rs init_counters) as Hp.
  pose proof (keys_totals_apply_records rs init_counters) as Ht.
  simpl in Hp, Ht. fold (first_seen (map patient_id rs)) in Hp.
  fold (first_seen (map event_type rs)) in Ht.
  split; [|split].
  - rewrite Hp. split; [apply NoDup_first_seen|].
    intros p. rewrite elem_of_first_seen, list_elem_of_fmap.
    split; intros (r & H1 & H2); exists r; done.
  - intros p. rewrite inner_of_apply_records, keys_foldl_increment.
    simpl. fold (first_seen (map event_type (records_of p rs))).
    split; [apply NoDup_first_seen|].
    intros t. rewrite elem_of_first_seen, list_elem_of_fmap.
    unfold records_of. split.
    + intros (r & H1 & H2). apply list_elem_of_filter in H2 as [H2 H3].
      exists r. done.
    + intros (r & H1 & H2 & H3). exists r. split; [done|].
      apply list_elem_of_filter. done.
  - rewrite Ht. split; [apply NoDup_first_seen|].
    intros t. rewrite elem_of_first_seen, list_elem_of_fmap.
    split; intros (r & H1 & H2); exists r; done.
Qed.

(** X5: the order of the rows, hence of the downloads, changes the order
    of the keys only: two record sequences that are permutations of each
    other give the same count to every patient and type and the same
    totals. *)
Theorem counts_do_not_depend_on_order
    (rs rs' : list event_record) (p t : str) :
  rs ≡ₚ rs' ->
  count t (inner_of p (patient_counts (apply_records rs init_counters)))
  = count t (inner_of p (patient_counts (apply_records rs' init_counters)))
  /\ count t (total_counts (apply_records rs init_counters))
     = count t (total_counts (apply_records rs' init_counters)).
Proof.
  intros Hperm.
  destruct (count_rows rs p t) as [-> ->].
  destruct (count_rows rs' p t) as [-> ->].
  unfold events_of, events_of_type. by rewrite Hperm.
Qed.

Lemma counts_do_not_depend_on_order_witness :
  let r1 := EventRecord (lit "P001") (lit "t1") (lit "heart_rate") (lit "75") in
  let r2 := EventRecord (lit "P002") (lit "t2") (lit "spo2") (lit "98") in
  [r1; r2] ≡ₚ [r2; r1]
  /\ count (lit "spo2")
       (inner_of (lit "P002")
          (patient_counts (apply_records [r1; r2] init_counters)))
     = count (lit "spo2")
         (inner_of (lit "P002")
            (patient_counts (apply_records [r2; r1] init_counters)))
  /\ count (lit "spo2") (total_counts (apply_records [r1; r2] init_counters))
     = count (lit "spo2")
         (total_counts (apply_records [r2; r1] init_counters)).
Proof.
  intros r1 r2.
  assert ([r1; r2] ≡ₚ [r2; r1]) as Hperm by apply Permutation_swap.
  split; [exact Hperm|].
  exact (counts_do_not_depend_on_order [r1; r2] [r2; r1] (lit "P002")
           (lit "spo2") Hperm).
Defined.

(** X6: counts add up over concatenation: what two streams give one after
    the other is, count by count, the sum of what each gives alone. *)
Theorem counts_add_up (rs1 rs2 : list event_record) (p t : str) :
  count t
    (inner_of p (patient_counts (apply_records (rs1 ++ rs2) init_counters)))
  = count t (inner_of p (patient_counts (apply_records rs1 init_counters)))
    + count t (inner_of p (patient_counts (apply_records rs2 init_counters)))
  /\ count t (total_counts (apply_records (rs1 ++ rs2) init_counters))
     = count t (total_counts (apply_records rs1 init_counters))
       + count t (total_counts (apply_records rs2 init_counters)).
Proof.
  destruct (count_rows (rs1 ++ rs2) p t) as [-> ->].
  destruct (count_rows rs1 p t) as [-> ->].
  destruct (count_rows rs2 p t) as [-> ->].
  unfold events_of, events_of_type.
  rewrite !filter_app, !length_app. lia.
Qed.

(** ** More on lines and rows *)

Section Rows.
Implicit Types (c sep : char) (s t ws : str).

Lemma join_split sep s : join [sep] (split sep s) = s.
Proof.
  induction s as [|x s IH]; simpl; [done|].
  destruct (N.eqb_spec x sep) as [->|Hne].
  - pose proof (split_length sep s) as Hl.
    destruct (split sep s) as [|f fs]; simpl in *; [lia|]. by rewrite IH.
  - pose proof (split_length sep s) as Hl.
    destruct (split sep s) as [|f fs]; simpl in *; [lia|].
    destruct fs; simpl in *; by rewrite <- IH.
Qed.

Lemma split_fields_no_sep sep s :
  Forall (fun f => count_char sep f = 0%nat) (split sep s).
Proof.
  induction s as [|x s IH]; simpl; [by repeat constructor|].
  destruct (N.eqb_spec x sep) as [->|Hne]; [by constructor|].
  destruct (split sep s) as [|f fs]; simpl.
  - repeat constructor. simpl. by rewrite (proj2 (N.eqb_neq x sep)).
  - inversion IH; subst. constructor; [|done].
    simpl. by rewrite (proj2 (N.eqb_neq x sep)).
Qed.

Lemma lstrip_idemp s : lstrip (lstrip s) = lstrip s.
Proof.
  induction s as [|x s IH]; simpl; [done|].
  destruct (isspace x) eqn:Hx; [done|]. simpl. by rewrite Hx.
Qed.

Lemma rstrip_idemp s : rstrip (rstrip s) = rstrip s.
Proof. unfold rstrip. by rewrite rev_involutive, lstrip_idemp. Qed.

Lemma rstrip_cons_stop c s :
  isspace c = false -> rstrip (c :: s) = c :: rstrip s.
Proof.
  intros Hc. unfold rstrip. simpl.
  rewrite (lstrip_app_stop c (rev s) []) by done.
  by rewrite rev_app_distr.
Qed.

(** A stripped text neither starts nor ends with white space. *)
Lemma lstrip_strip s : lstrip (strip s) = strip s.
Proof.
  unfold strip. destruct (lstrip s) as [|x u] eqn:Hu; [done|].
  assert (isspace x = false) as Hx.
  { pose proof (lstrip_idemp s) as H. rewrite Hu in H. simpl in H.
    destruct (isspace x); [|done].
    assert (length (lstrip u) <= length u)%nat as Hl.
    { clear. induction u as [|y u IH]; simpl; [done|].
      destruct (isspace y); simpl; lia. }
    rewrite H in Hl. simpl in Hl. lia. }
  rewrite rstrip_cons_stop by done. simpl. by rewrite Hx.
Qed.

Lemma rstrip_strip s : rstrip (strip s) = strip s.
Proof. unfold strip. apply rstrip_idemp. Qed.

Lemma lstrip_blank ws : blank ws -> lstrip ws = [].
Proof. induction 1 as [|x ws Hx Hws IH]; simpl; [done|]. by rewrite Hx. Qed.

Lemma lstrip_blank_app ws s : blank ws -> lstrip (ws ++ s) = lstrip s.
Proof. induction 1 as [|x ws Hx Hws IH]; simpl; [done|]. by rewrite Hx. Qed.

Lemma rstrip_app_blank ws s : blank ws -> rstrip (s ++ ws) = rstrip s.
Proof.
  intros Hws. unfold rstrip. rewrite rev_app_distr.
  rewrite lstrip_blank_app; [done|]. by apply Forall_rev.
Qed.

Lemma lstrip_app s t :
  lstrip (s ++ t) = match lstrip s with
                    | [] => lstrip t
                    | _ => lstrip s ++ t
                    end.
Proof.
  induction s as [|x s IH]; simpl; [by destruct (lstrip t)|].
  by destruct (isspace x).
Qed.

Lemma strip_blank_around ws1 ws2 s :
  blank ws1 -> blank ws2 -> strip (ws1 ++ s ++ ws2) = strip s.
Proof.
  intros H1 H2. unfold strip. rewrite lstrip_blank_app by done.
  rewrite lstrip_app. destruct (lstrip s) as [|x u] eqn:Hu.
  - by rewrite lstrip_blank.
  - by rewrite rstrip_app_blank.
Qed.

Lemma four_fields_join (f1 f2 f3 f4 : str) :
  join [comma] [f1; f2; f3; f4] = four_fields f1 f2 f3 f4.
Proof. reflexivity. Qed.

Lemma four_fields_first_inj (a a' rest rest' : str) :
  count_char comma a = 0%nat -> count_char comma a' = 0%nat ->
  a ++ comma :: rest = a' ++ comma :: rest' -> a = a'.
Proof.
  revert a'. induction a as [|x a IH]; intros [|y a'] Ha Ha' H; [done| | |].
  - injection H as <- _. simpl in Ha'. by rewrite ?N.eqb_refl in Ha'.
  - injection H as -> _. simpl in Ha. by rewrite ?N.eqb_refl in Ha.
  - injection H as -> H. simpl in Ha, Ha'.
    destruct (y =? comma)%N; [done|]. f_equal. by eapply IH.
Qed.
End Rows.

(** X7: a row that is parsed loses nothing but the white space around the
    line: joined by commas, the four fields of the record are the stripped
    line; no field contains a comma, the patient identifier does not start
    with white space and the value does not end with white space. *)
Theorem parse_row_sound (line : str) (r : event_record) :
  parse_row line = Some r ->
  strip line
  = four_fields (patient_id r) (event_time r) (event_type r) (value_field r)
  /\ Forall (fun f => count_char comma f = 0%nat)
       [patient_id r; event_time r; event_type r; value_field r]
  /\ lstrip (patient_id r) = patient_id r
  /\ rstrip (value_field r) = value_field r.
Proof.
  rewrite parse_row_fields. intros H.
  pose proof (join_split comma (strip line)) as Hj.
  pose proof (split_fields_no_sep comma (strip line)) as Hf.
  destruct (split comma (strip line)) as [|a [|b [|c [|d [|e l]]]]];
    try done.
  simplify_eq. simpl patient_id. simpl event_time. simpl event_type.
  simpl value_field. rewrite four_fields_join in Hj.
  split; [done|]. split; [done|].
  inversion Hf as [|? ? Ha Hf1]; subst. inversion Hf1 as [|? ? Hb Hf2]; subst.
  inversion Hf2 as [|? ? Hc Hf3]; subst. inversion Hf3 as [|? ? Hd _]; subst.
  split.
  - pose proof (lstrip_strip line) as Hl. rewrite <- Hj in Hl.
    unfold four_fields in Hl.
    rewrite lstrip_app_stop in Hl by apply isspace_comma.
    eapply four_fields_first_inj; [| |exact Hl]; [|done].
    by rewrite count_char_lstrip by apply isspace_comma.
  - pose proof (rstrip_strip line) as Hl. rewrite <- Hj in Hl.
    unfold four_fields in Hl.
    replace (a ++ comma :: b ++ comma :: c ++ comma :: d)
      with ((a ++ comma :: b ++ comma :: c) ++ comma :: d) in Hl
      by (rewrite <- !app_assoc; simpl; by rewrite <- !app_assoc).
    rewrite rstrip_app_stop in Hl by apply isspace_comma.
    apply app_inv_head in Hl. by simplify_eq.
Qed.

Lemma parse_row_sound_witness :
  parse_row (lit "  P001 ,t, heart_rate,75  ")
  = Some (EventRecord (lit "P001 ") (lit "t") (lit " heart_rate") (lit "75"))
  /\ strip (lit "  P001 ,t, heart_rate,75  ")
     = four_fields (lit "P001 ") (lit "t") (lit " heart_rate") (lit "75")
  /\ lstrip (lit "P001 ") = lit "P001 "
  /\ rstrip (lit "75") = lit "75".
Proof.
  assert (parse_row (lit "  P001 ,t, heart_rate,75  ")
          = Some (EventRecord (lit "P001 ") (lit "t") (lit " heart_rate")
                    (lit "75"))) as H by reflexivity.
  split; [exact H|].
  destruct (parse_row_sound _ _ H) as (H1 & _ & H3 & H4).
  split; [exact H1|]. split; [exact H3 | exact H4].
Defined.

(** X8: white space around a line, a carriage return before the line feed
    included, changes neither the record parsed nor the state after the
    line. *)
Theorem surrounding_space_ignored
    (ws1 ws2 line : str) (st : loop_state) :
  blank ws1 -> blank ws2 ->
  parse_row (ws1 ++ line ++ ws2) = parse_row line
  /\ process_line (ws1 ++ line ++ ws2) st = process_line line st.
Proof.
  intros H1 H2.
  assert (parse_row (ws1 ++ line ++ ws2) = parse_row line) as Hp
    by (by rewrite !parse_row_fields, strip_blank_around).
  split; [done|]. unfold process_line. by rewrite Hp.
Qed.

Lemma surrounding_space_ignored_witness :
  blank [9%N; 32%N] /\ blank [13%N; 10%N]
  /\ parse_row ([9%N; 32%N] ++ lit "P001,t,heart_rate,75" ++ [13%N; 10%N])
     = parse_row (lit "P001,t,heart_rate,75").
Proof.
  assert (blank [9%N; 32%N]) as H1 by (repeat constructor).
  assert (blank [13%N; 10%N]) as H2 by (repeat constructor).
  split; [exact H1|]. split; [exact H2|].
  exact (proj1 (surrounding_space_ignored [9%N; 32%N] [13%N; 10%N]
                  (lit "P001,t,heart_rate,75") (LoopState init_counters 0)
                  H1 H2)).
Defined.

(** ** The lines of a download *)

Section Lines.
Implicit Types (st : loop_state) (w : world).

Lemma foldl_process_line_state (ss : list str) st :
  foldl (fun st s => process_line s st) st ss
  = LoopState (apply_records (omap parse_row ss) (counts st))
      (row_count st + Z.of_nat (length (omap parse_row ss))).
Proof.
  revert st. induction ss as [|s ss IH]; intros st.
  - destruct st. simpl. f_equal. lia.
  - cbn [foldl]. rewrite IH. unfold process_line.
    change (omap parse_row (s :: ss))
      with (match parse_row s with
            | Some r => r :: omap parse_row ss
            | None => omap parse_row ss
            end).
    destruct (parse_row s) as [r|]; [|done].
    cbn [counts row_count length]. unfold apply_records. cbn [foldl].
    f_equal. lia.
Qed.

Lemma iter_lines_first (h rest : bytes) :
  no_line_feed h = true ->
  iter_lines (h ++ LF :: rest) = (h ++ [LF]) :: iter_lines rest.
Proof.
  unfold no_line_feed. induction h as [|x h IH]; simpl; [done|].
  rewrite negb_orb. intros [Hx Hh]%andb_true_iff.
  apply negb_true_iff in Hx. rewrite Hx, IH by done. done.
Qed.
End Lines.

(** X9: the loop over the lines of a response ends in one of three ways
    and in no other.  A line that is not UTF-8 raises [UnicodeDecodeError],
    before any later failure of the response is met.  When the lines
    handed over all decode and a read of the response then fails, the
    exception of that read is raised, whatever rows were counted before
    it.  Otherwise the loop ends, having added the rows of the lines to
    the counters and their number to [row_count], blank and malformed
    lines being passed over.  In all three the loop prints nothing, writes
    no file and makes no request. *)
Theorem line_loop_outcomes
    (lines : list bytes) (failure : option exn) (st : loop_state)
    (w : world) :
  process_lines lines failure st w
  = (match decode_all lines with
     | None => Raise UnicodeDecodeError
     | Some ss =>
         match failure with
         | Some e => Raise e
         | None =>
             Ok (LoopState (apply_records (omap parse_row ss) (counts st))
                   (row_count st + Z.of_nat (length (omap parse_row ss))))
         end
     end, w).
Proof.
  rewrite process_lines_run. destruct (decode_all lines) as [ss|]; [|done].
  destruct failure; [done|]. by rewrite foldl_process_line_state.
Qed.

(** X10: the first line of a response is dropped as it is, neither decoded
    nor counted: whatever bytes come before the first line feed, a data
    row or bytes that are no text at all, a download that is read to its
    end adds the rows of the lines after it and no other. *)
Theorem header_line_dropped
    (P : platform) (export_id : str) (download_ids d : value) (c : counters)
    (w : world) (h rest : bytes) (ss : list str) :
  index_check download_ids = Ok tt ->
  urlopen P (length (requests w)) (data_url P export_id d)
  = Ok (Response (h ++ LF :: rest) None) ->
  no_line_feed h = true ->
  decode_all (iter_lines rest) = Some ss ->
  process_download P export_id download_ids d c w
  = (Ok (apply_records (omap parse_row ss) c),
     record_request (data_url P export_id d) w).
Proof.
  intros Hi Hu Hh Hd.
  apply (process_download_rows _ _ _ _ _ _ (h ++ LF :: rest)); try done.
  by rewrite iter_lines_first.
Qed.

Lemma header_line_dropped_witness :
  process_download
    (replay_platform (export_document ["d1"%string])
       [blit "P001,2023-01-01T00:00:00Z,heart_rate,75
P002,2023-01-01T00:00:00Z,spo2,98
"])
    (lit "demo") (VList [VStr (lit "d1")]) (VStr (lit "d1")) init_counters
    fresh_world
  = (Ok (Counters [(lit "P002", [(lit "spo2", 1)])] [(lit "spo2", 1)]),
     World [] ∅ [lit "http://localhost:8000/api/export/demo/d1/data"]).
Proof.
  exact (header_line_dropped
           (replay_platform (export_document ["d1"%string])
              [blit "P001,2023-01-01T00:00:00Z,heart_rate,75
P002,2023-01-01T00:00:00Z,spo2,98
"])
           (lit "demo") (VList [VStr (lit "d1")]) (VStr (lit "d1"))
           init_counters fresh_world
           (blit "P001,2023-01-01T00:00:00Z,heart_rate,75")
           (blit "P002,2023-01-01T00:00:00Z,spo2,98
")
           [lit "P002,2023-01-01T00:00:00Z,spo2,98" ++ [10%N]]
           eq_refl eq_refl eq_refl eq_refl).
Defined.

(** A response that breaks after a row was counted kills the run with the
    exception of the read: the row is given up and nothing is printed. *)
Example interrupted_download :
  process_data
    (replay_responses (export_document ["test-id"%string])
       [Response (blit "export") None;
        Response (blit "patient_id,event_time,event_type,value
P001,2023-01-01T00:00:00Z,heart_rate,75
") (Some IncompleteRead)])
    (lit "demo") (Some (lit "out.json")) fresh_world
  = (Raise IncompleteRead,
     World [] ∅
       [lit "http://localhost:8000/api/export/demo";
        lit "http://localhost:8000/api/export/demo/test-id/data"]).
Proof. vm_compute. reflexivity. Qed.

(** ** Whole runs *)

Section WholeRuns.
Variable P : platform.
Implicit Types (e : str) (w : world) (c : counters) (d : value).

Lemma length_record_request url w :
  length (requests (record_request url w)) = S (length (requests w)).
Proof. simpl. rewrite length_app. simpl. lia. Qed.

Lemma process_download_failure e ids0 d c w ex :
  index_check ids0 = Ok tt ->
  download_failure P e (length (requests w)) d ex ->
  process_download P e ids0 d c w
  = (Raise ex, record_request (data_url P e d) w).
Proof.
  intros Hi H. unfold process_download. rewrite bind_run. unfold lift.
  rewrite Hi. rewrite bind_run. unfold do_urlopen.
  destruct H as [ex H|r H1 H2|r ss ex H1 H2 H3]; [by rewrite H| |].
  - rewrite H1. by rewrite bind_run, process_lines_run, H2.
  - rewrite H1. by rewrite bind_run, process_lines_run, H2, H3.
Qed.

Lemma process_downloads_failure e ids0 ids1 d ids2 rs c w ex :
  index_check ids0 = Ok tt ->
  downloads_rows P e (length (requests w)) ids1 rs ->
  download_failure P e (length (requests w) + length ids1) d ex ->
  process_downloads P e ids0 (ids1 ++ d :: ids2) c w
  = (Raise ex,
     World (stdout w) (files w)
       (requests w ++ map (data_url P e) (ids1 ++ [d]))).
Proof.
  intros Hi. revert rs c w.
  induction ids1 as [|d1 ids1 IH]; intros rs c w H Hf; inversion H; subst.
  - cbn [app process_downloads]. rewrite bind_run.
    rewrite (process_download_failure _ _ _ _ _ ex); [done|done|].
    by rewrite Nat.add_0_r in Hf.
  - cbn [app process_downloads]. rewrite bind_run.
    rewrite (process_download_rows _ _ _ _ _ _ body ss) by done.
    rewrite (IH rs0 _ (record_request (data_url P e d1) w)).
    + simpl. by rewrite <- app_assoc.
    + by rewrite length_record_request.
    + rewrite length_record_request. cbn [length] in Hf.
      by replace (S (length (requests w)) + length ids1)%nat
        with (length (requests w) + S (length ids1))%nat by lia.
Qed.





Lemma collect_run_rows e w rs :
  run_rows P e w rs ->
  exists w1,
    collect P e w = (Ok (apply_records rs init_counters), w1)
    /\ stdout w1 = stdout w /\ files w1 = files w.
Proof.
  intros H. pose proof (collect_rows _ _ _ _ H) as Hc.
  pose proof (collect_world P e w) as [Hout Hfiles].
  destruct (collect P e w) as [[c|ex] w1]; simpl in *; [|done].
  simplify_eq. by exists w1.
Qed.
End WholeRuns.



(** X13: when the output file cannot be opened for writing the result has
    been printed already: the run raises the exception of [open], standard
    output holds the whole JSON text, no file is changed, and [main]
    returns 255. *)
Theorem unwritable_output_file
    (P : platform) (export_id path : str) (w : world) (c : counters)
    (ex : exn) :
  fst (collect P export_id w) = Ok c ->
  path <> [] ->
  open_w P path = Some ex ->
  let w' := World (stdout w ++ dumps (output_of c) ++ [10%N]) (files w)
              (requests (snd (collect P export_id w))) in
  process_data P export_id (Some path) w = (Raise ex, w')
  /\ main P export_id (Some path) w = (255, w').
Proof.
  intros Hc Hp Ho.
  pose proof (collect_world P export_id w) as [Hout Hfiles].
  unfold main. rewrite process_data_run.
  destruct (collect P export_id w) as [[c'|] w1]; cbn [fst snd] in *;
    [|done].
  simplify_eq. rewrite emit_run.
  destruct path as [|ch path]; [done|]. cbn [truthy].
  unfold write_file. rewrite Ho. cbn [stdout files requests].
  by rewrite Hout, Hfiles.
Qed.

Lemma unwritable_output_file_witness :
  let text :=
    dumps (VDict
      [(lit "patients",
        VDict [(lit "P001", VDict [(lit "heart_rate", VInt 2)])]);
       (lit "totals", VDict [(lit "heart_rate", VInt 2)])]) in
  let w' :=
    World (text ++ [10%N]) ∅
      [lit "http://localhost:8000/api/export/demo";
       lit "http://localhost:8000/api/export/demo/d1/data";
       lit "http://localhost:8000/api/export/demo/d2/data"] in
  process_data read_only_platform (lit "demo") (Some (lit "out.json"))
    fresh_world
  = (Raise (OSError (lit "Permission denied")), w')
  /\ main read_only_platform (lit "demo") (Some (lit "out.json")) fresh_world
     = (255, w').
Proof.
  refine (unwritable_output_file read_only_platform (lit "demo")
            (lit "out.json") fresh_world
            (Counters [(lit "P001", [(lit "heart_rate", 2)])]
               [(lit "heart_rate", 2)])
            (OSError (lit "Permission denied")) eq_refl _ eq_refl).
  discriminate.
Defined.



(** X15: an export whose ["download_ids"] is no list and no string stops
    the run before any download is asked for: a number, a boolean or
    [null] raises [TypeError], a dictionary with a key raises
    [AttributeError]; only the export has been requested, nothing is
    printed, and [main] returns 255. *)
Theorem ill_typed_download_ids
    (P : platform) (export_id : str) (output_file : option str) (w : world)
    (download_ids : value) (ex : exn) :
  fst (resolve P export_id w) = Ok download_ids ->
  ill_typed_error download_ids = Some ex ->
  process_data P export_id output_file w
  = (Raise ex, record_request (export_url export_id) w)
  /\ main P export_id output_file w
     = (255, record_request (export_url export_id) w).
Proof.
  intros Hres Hill. unfold main, process_data, collect.
  rewrite !bind_run. rewrite resolve_run in *. cbn [fst] in Hres.
  rewrite Hres. rewrite bind_run. unfold lift.
  destruct download_ids as [| | | | |l|d]; simpl in Hill; simplify_eq;
    try done.
  destruct d as [|[k v] d]; simplify_eq.
  cbn [iterate map process_downloads]. rewrite bind_run.
  unfold process_download. by rewrite bind_run.
Qed.

Lemma ill_typed_download_ids_witness :
  process_data
    (replay_platform
       (VDict [(lit "data", VDict [(lit "download_ids", VInt 7)])])
       [blit "{}"])
    (lit "demo") None fresh_world
  = (Raise TypeError,
     record_request (export_url (lit "demo")) fresh_world)
  /\ main
       (replay_platform
          (VDict [(lit "data", VDict [(lit "download_ids", VInt 7)])])
          [blit "{}"])
       (lit "demo") None fresh_world
     = (255, record_request (export_url (lit "demo")) fresh_world).
Proof.
  exact (ill_typed_download_ids
           (replay_platform
              (VDict [(lit "data", VDict [(lit "download_ids", VInt 7)])])
              [blit "{}"])
           (lit "demo") None fresh_world (VInt 7) TypeError
           eq_refl eq_refl).
Defined.

(** X16: the failure of a download is the failure of the run.  When the
    downloads before it answer and its own request fails, or one of its
    lines is not UTF-8, or a read of its response fails after lines that
    decode, [process_data] raises that very exception: the
    rows counted so far are given up, nothing is printed, no file is
    written, the downloads after it are never asked for, and [main]
    returns 255. *)
Theorem download_errors_propagate
    (P : platform) (export_id : str) (output_file : option str) (w : world)
    (download_ids d : value) (ids1 ids2 : list value)
    (rs : list event_record) (ex : exn) :
  fst (resolve P export_id w) = Ok download_ids ->
  iterate download_ids = Ok (ids1 ++ d :: ids2) ->
  index_check download_ids = Ok tt ->
  downloads_rows P export_id (S (length (requests w))) ids1 rs ->
  download_failure P export_id (S (length (requests w)) + length ids1) d ex ->
  let w' := World (stdout w) (files w)
              (requests w
               ++ export_url export_id
                  :: map (data_url P export_id) (ids1 ++ [d])) in
  process_data P export_id output_file w = (Raise ex, w')
  /\ main P export_id output_file w = (255, w').
Proof.
  intros Hres Hit Hi Hrows Hf.
  unfold main, process_data, collect.
  rewrite !bind_run. rewrite resolve_run in *. cbn [fst] in Hres.
  rewrite Hres. rewrite bind_run. unfold lift. rewrite Hit.
  rewrite (process_downloads_failure P export_id download_ids ids1 d ids2
             rs init_counters (record_request (export_url export_id) w) ex
             Hi).
  - cbn [record_request stdout files requests]. by rewrite <- app_assoc.
  - by rewrite length_record_request.
  - by rewrite length_record_request.
Qed.

Lemma download_errors_propagate_witness :
  let P :=
    replay_platform (export_document ["d1"; "d2"; "d3"]%string)
      [blit "{}";
       blit "patient_id,event_time,event_type,value
P001,2023-01-01T00:00:00Z,heart_rate,75
"] in
  let w' :=
    World [] ∅
      [lit "http://localhost:8000/api/export/demo";
       lit "http://localhost:8000/api/export/demo/d1/data";
       lit "http://localhost:8000/api/export/demo/d2/data"] in
  process_data P (lit "demo") (Some (lit "out.json")) fresh_world
  = (Raise (URLError (lit "no response left")), w')
  /\ main P (lit "demo") (Some (lit "out.json")) fresh_world = (255, w').
Proof.
  refine (download_errors_propagate
            (replay_platform (export_document ["d1"; "d2"; "d3"]%string)
               [blit "{}";
                blit "patient_id,event_time,event_type,value
P001,2023-01-01T00:00:00Z,heart_rate,75
"])
            (lit "demo") (Some (lit "out.json")) fresh_world
            (VList [VStr (lit "d1"); VStr (lit "d2"); VStr (lit "d3")])
            (VStr (lit "d2")) [VStr (lit "d1")] [VStr (lit "d3")]
            [EventRecord (lit "P001") (lit "2023-01-01T00:00:00Z")
               (lit "heart_rate") (lit "75")]
            (URLError (lit "no response left"))
            eq_refl eq_refl eq_refl _ _).
  - refine (next_download
              (replay_platform (export_document ["d1"; "d2"; "d3"]%string)
                 [blit "{}";
                  blit "patient_id,event_time,event_type,value
P001,2023-01-01T00:00:00Z,heart_rate,75
"])
              (lit "demo") 1 (VStr (lit "d1")) [] _
              [lit "P001,2023-01-01T00:00:00Z,heart_rate,75" ++ [10%N]]
              [] eq_refl eq_refl _).
    apply no_download_left.
  - apply download_request_failed. reflexivity.
Defined.

(** X17: when the output file opens and the writing then fails, the file
    has been truncated already: the run raises the exception of the
    write, standard output holds the whole JSON text, the output file is
    left with what had reached it, and [main] returns 255. *)
Theorem failed_write_after_open
    (P : platform) (export_id path : str) (w : world) (c : counters)
    (ex : exn) (reached : str) :
  fst (collect P export_id w) = Ok c ->
  path <> [] ->
  open_w P path = None ->
  write_w P path (dumps (output_of c)) = Some (ex, reached) ->
  let w' := World (stdout w ++ dumps (output_of c) ++ [10%N])
              (<[path := reached]> (files w))
              (requests (snd (collect P export_id w))) in
  process_data P export_id (Some path) w = (Raise ex, w')
  /\ main P export_id (Some path) w = (255, w').
Proof.
  intros Hc Hp Ho Hw.
  pose proof (collect_world P export_id w) as [Hout Hfiles].
  unfold main. rewrite process_data_run.
  destruct (collect P export_id w) as [[c'|] w1]; cbn [fst snd] in *;
    [|done].
  simplify_eq. rewrite emit_run.
  destruct path as [|ch path]; [done|]. cbn [truthy].
  unfold write_file. rewrite Ho, Hw. cbn [stdout files requests].
  by rewrite Hout, Hfiles.
Qed.

Lemma failed_write_after_open_witness :
  let text :=
    dumps (VDict
      [(lit "patients",
        VDict [(lit "P001", VDict [(lit "heart_rate", VInt 2)])]);
       (lit "totals", VDict [(lit "heart_rate", VInt 2)])]) in
  let w0 := World [] {[ lit "out.json" := lit "old content" ]} [] in
  let w' :=
    World (text ++ [10%N]) (<[lit "out.json" := []]> (files w0))
      [lit "http://localhost:8000/api/export/demo";
       lit "http://localhost:8000/api/export/demo/d1/data";
       lit "http://localhost:8000/api/export/demo/d2/data"] in
  process_data full_disk_platform (lit "demo") (Some (lit "out.json")) w0
  = (Raise (OSError (lit "No space left on device")), w')
  /\ main full_disk_platform (lit "demo") (Some (lit "out.json")) w0
     = (255, w').
Proof.
  refine (failed_write_after_open full_disk_platform (lit "demo")
            (lit "out.json")
            (World [] {[ lit "out.json" := lit "old content" ]} [])
            (Counters [(lit "P001", [(lit "heart_rate", 2)])]
               [(lit "heart_rate", 2)])
            (OSError (lit "No space left on device")) []
            eq_refl _ eq_refl eq_refl).
  discriminate.
Defined.

(** ** The order of the keys in the text *)

Section Layout.
Implicit Types (rs : list event_record) (c : counters) (p t : str).

Lemma encode_object lvl (d : list (str * value)) :
  encode lvl (VDict d)
  = object_text lvl (map (fun kv => (fst kv, encode (S lvl) (snd kv))) d).
Proof.
  destruct d as [|kv d]; [done|]. rewrite encode_dict_cons.
  unfold object_text. cbn [map]. cbn [fst snd]. by rewrite map_map.
Qed.

Lemma encode_int_items lvl (d : dict Z) :
  encode lvl (VDict (int_items d))
  = object_text lvl (map (fun tn => (fst tn, str_of_int (snd tn))) d).
Proof. rewrite encode_object. unfold int_items. by rewrite map_map. Qed.

Lemma encode_patient_items lvl (pc : dict (dict Z)) :
  encode lvl (VDict (patient_items pc))
  = object_text lvl
      (map (fun kv =>
              (fst kv,
               object_text (S lvl)
                 (map (fun tn => (fst tn, str_of_int (snd tn))) (snd kv))))
           pc).
Proof.
  rewrite encode_object. unfold patient_items. rewrite map_map.
  f_equal. apply map_ext. intros [k d]. cbn [fst snd].
  by rewrite encode_int_items.
Qed.

Lemma dict_get_keys {V} (k : str) (v : V) (d : dict V) :
  dict_get k d = Some v -> k ∈ keys d.
Proof.
  induction d as [|[k0 v0] d IH]; simpl; [done|].
  destruct (decide (k0 = k)) as [->|_]; intros H.
  - apply list_elem_of_here.
  - apply list_elem_of_further. by apply IH.
Qed.

(** A dictionary is the list of its keys, each with its value. *)
Lemma dict_of_keys {V} (f : str -> V) (d : dict V) :
  NoDup (keys d) ->
  (forall k v, dict_get k d = Some v -> f k = v) ->
  d = map (fun k => (k, f k)) (keys d).
Proof.
  induction d as [|[k v] d IH]; intros Hnd Hf; [done|].
  cbn [keys map fst] in *. apply NoDup_cons in Hnd as [Hk Hnd].
  f_equal.
  - f_equal. symmetry. apply Hf. simpl. by rewrite decide_True.
  - apply IH; [done|]. intros k' v' Hget. apply Hf. simpl.
    rewrite decide_False; [done|]. intros ->.
    apply Hk. by apply (dict_get_keys _ v').
Qed.

Lemma count_get (t : str) (n : Z) (d : dict Z) :
  dict_get t d = Some n -> count t d = n.
Proof. unfold count. by intros ->. Qed.

Lemma totals_of_stream rs :
  total_counts (apply_records rs init_counters)
  = map (fun t => (t, events_of_type t rs)) (first_seen (map event_type rs)).
Proof.
  pose proof (keys_totals_apply_records rs init_counters) as Hk.
  simpl in Hk. fold (first_seen (map event_type rs)) in Hk.
  rewrite <- Hk. apply dict_of_keys.
  - rewrite Hk. apply NoDup_first_seen.
  - intros t n Hget. apply count_get in Hget.
    by destruct (count_rows rs t t) as [_ <-].
Qed.

Lemma inner_of_stream p rs :
  inner_of p (patient_counts (apply_records rs init_counters))
  = map (fun t => (t, events_of p t rs))
      (first_seen (map event_type (records_of p rs))).
Proof.
  assert (keys (inner_of p (patient_counts (apply_records rs init_counters)))
          = first_seen (map event_type (records_of p rs))) as Hk.
  { rewrite inner_of_apply_records. apply keys_foldl_increment. }
  rewrite <- Hk. apply dict_of_keys.
  - rewrite Hk. apply NoDup_first_seen.
  - intros t n Hget. apply count_get in Hget.
    by destruct (count_rows rs p t) as [<- _].
Qed.

Lemma patients_of_stream rs :
  patient_counts (apply_records rs init_counters)
  = map (fun p =>
           (p, map (fun t => (t, events_of p t rs))
                 (first_seen (map event_type (records_of p rs)))))
      (first_seen (map patient_id rs)).
Proof.
  pose proof (keys_patients_apply_records rs init_counters) as Hk.
  simpl in Hk. fold (first_seen (map patient_id rs)) in Hk.
  rewrite <- Hk. apply dict_of_keys.
  - rewrite Hk. apply NoDup_first_seen.
  - intros p d Hget. rewrite <- inner_of_stream. unfold inner_of.
    by rewrite Hget.
Qed.

(** The text of the result of a record stream. *)
Lemma dumps_first_seen rs :
  dumps (output_of (apply_records rs init_counters)) = first_seen_text rs.
Proof.
  unfold dumps, first_seen_text. rewrite output_of_items, encode_object.
  cbn [map fst snd].
  rewrite encode_patient_items, encode_int_items.
  rewrite totals_of_stream, patients_of_stream, !map_map.
  cbn [fst snd]. do 3 f_equal.
  f_equal. apply map_ext. intros p. by rewrite map_map.
Qed.
End Layout.

(** C8: in the JSON text a run emits the keys stand in the order of their
    first occurrence in the record stream, and nothing is sorted: the text
    printed is the one that has ["patients"] before ["totals"], the
    patients in the order in which they were first seen in the stream,
    under each patient the event types in the order in which they were
    first seen among that patient's records, and in the totals the event
    types in the order in which they were first seen in the stream, each
    with the number of its records; and when the run returns with an
    output file, the file holds that same text. *)
Theorem keys_in_first_seen_order
    (P : platform) (export_id : str) (output_file : option str) (w : world)
    (rs : list event_record) :
  run_rows P export_id w rs ->
  let r := process_data P export_id output_file w in
  stdout (snd r) = stdout w ++ first_seen_text rs ++ [10%N]
  /\ match fst r with
     | Ok _ =>
         forall path,
           truthy output_file = Some path ->
           files (snd r) !! path = Some (first_seen_text rs)
     | Raise _ => True
     end.
Proof.
  intros Hrows r. subst r.
  destruct (collect_run_rows P export_id w rs Hrows)
    as (w1 & Hc & Hout & Hfiles).
  rewrite process_data_run, Hc, emit_run, dumps_first_seen.
  destruct (truthy output_file) as [p|].
  - unfold write_file. destruct (open_w P p).
    + cbn [fst snd stdout]. by rewrite Hout.
    + destruct (write_w P p _) as [[ex reached]|];
        cbn [fst snd stdout files]; rewrite Hout; [done|].
      split; [done|]. intros path Hp. simplify_eq.
      by rewrite lookup_insert_eq.
  - cbn [fst snd stdout]. rewrite Hout. split; [done|]. by intros path Hp.
Qed.

(** Patient [P002] is seen before [P001] and type [spo2] before
    [heart_rate]: they are printed in that order, which is not the sorted
    one. *)
Lemma keys_in_first_seen_order_witness :
  let r := process_data unsorted_platform (lit "demo")
             (Some (lit "out.json")) fresh_world in
  let text :=
    object_text 0
      [(lit "patients",
        object_text 1
          [(lit "P002",
            object_text 2 [(lit "spo2", lit "1"); (lit "heart_rate", lit "1")]);
           (lit "P001", object_text 2 [(lit "heart_rate", lit "1")])]);
       (lit "totals",
        object_text 1 [(lit "spo2", lit "1"); (lit "heart_rate", lit "2")])]
  in
  stdout (snd r) = stdout fresh_world ++ text ++ [10%N]
  /\ match fst r with
     | Ok _ =>
         forall path,
           truthy (Some (lit "out.json")) = Some path ->
           files (snd r) !! path = Some text
     | Raise _ => True
     end.
Proof.
  refine (keys_in_first_seen_order unsorted_platform
            (lit "demo") (Some (lit "out.json")) fresh_world
            [EventRecord (lit "P002") (lit "t0") (lit "spo2") (lit "98");
             EventRecord (lit "P001") (lit "t1") (lit "heart_rate") (lit "75");
             EventRecord (lit "P002") (lit "t2") (lit "heart_rate") (lit "70")]
            _).
  refine (run_rows_intro unsorted_platform (lit "demo") fresh_world
            (VList [VStr (lit "d1")]) [VStr (lit "d1")] _
            eq_refl eq_refl eq_refl _).
  refine (next_download unsorted_platform (lit "demo") 1 (VStr (lit "d1")) []
            _
            [lit "P002,t0,spo2,98" ++ [10%N];
             lit "P001,t1,heart_rate,75" ++ [10%N];
             lit "P002,t2,heart_rate,70" ++ [10%N]]
            [] eq_refl eq_refl _).
  apply no_download_left.
Defined.
